(** * Flow Go SDK: event encodings, events hash and the REST access handler

    A shallow embedding of the two source files of the repository:

    - the event model ([Event], [Encode], [ID], [Fingerprint],
      [CalculateEventsHash], [AccountCreatedEvent.Address]);
    - the HTTP handler of the access API ([Handler], [mustBuildURL], [get],
      [post] and the operations built on them).

    Go values are modelled as follows.  A [string] and a [[]byte] are byte
    sequences: [string] (a list of 8-bit characters) and [list byte].  The
    platform integer [int] is 64 bits wide and is a [Z]; the conversions
    [uint(x)] and [uint32(x)] are written out as reductions modulo [2^64] and
    [2^32].  A nil slice and an empty slice are both the empty list.  An
    [error] is its message, the text [err.Error()] returns.  A function that
    can panic returns an explicit outcome. *)

From stdpp Require Import base gmap strings.
From Stdlib Require Import ZArith NArith List String Ascii Bool Lia.
From Stdlib Require Import Strings.Byte DecimalString.
Import ListNotations.

Local Open Scope string_scope.

(** ** Errors and results *)

(** A Go [error] value, identified with its message. *)
Definition error : Type := string.

(** The pair [(value, error)] a Go function returns, of which exactly one
    component is meaningful. *)
Inductive result (A : Type) : Type :=
| Ok (a : A)
| Err (e : error).
Arguments Ok {A} a.
Arguments Err {A} e.

#[global] Instance result_ret : MRet result := fun _ a => Ok a.
#[global] Instance result_bind : MBind result := fun _ _ f m =>
  match m with
  | Ok a => f a
  | Err e => Err e
  end.

(** [errors.Wrap(err, message)]: the message of the wrapped error. *)
Definition errors_Wrap (err : error) (message : string) : error :=
  message ++ ": " ++ err.

(** ** Bytes *)

(** The conversion [byte(n)] of an unsigned integer: the low eight bits. *)
Definition byte_of_N (n : N) : byte :=
  match Byte.of_N (n mod 256) with
  | Some b => b
  | None => x00
  end.

(** [uint32(x)] and [uint(x)] of an [int]. *)
Definition uint32 (x : Z) : N := Z.to_N (x mod 2 ^ 32).
Definition uint64 (x : Z) : N := Z.to_N (x mod 2 ^ 64).

(** ** encoding/hex *)

Module hex.

(** [hextable[n]] for a nibble [n]. *)
Definition hexchar (n : N) : ascii :=
  if (n <? 10)%N then ascii_of_N (48 + n) else ascii_of_N (87 + n).

(** [fromHexChar]: the value of a hexadecimal digit, either case. *)
Definition fromHexChar (c : ascii) : option N :=
  let n := N_of_ascii c in
  if ((48 <=? n) && (n <=? 57))%N then Some (n - 48)%N
  else if ((97 <=? n) && (n <=? 102))%N then Some (n - 87)%N
  else if ((65 <=? n) && (n <=? 70))%N then Some (n - 55)%N
  else None.

Fixpoint EncodeToString (src : list byte) : string :=
  match src with
  | [] => EmptyString
  | b :: rest =>
      String (hexchar (Byte.to_N b / 16))
        (String (hexchar (Byte.to_N b mod 16)) (EncodeToString rest))
  end.

(** The message of an invalid byte names the byte; the Unicode notation Go
    prints it in is left out. *)
Definition InvalidByteError (c : ascii) : error :=
  "encoding/hex: invalid byte: " ++ String c EmptyString.
Definition ErrLength : error := "encoding/hex: odd length hex string".

(** [hex.DecodeString]: two digits per byte; an invalid digit is reported
    before an odd length. *)
Fixpoint DecodeString (s : string) : result (list byte) :=
  match s with
  | EmptyString => Ok []
  | String p EmptyString =>
      match fromHexChar p with
      | None => Err (InvalidByteError p)
      | Some _ => Err ErrLength
      end
  | String p (String q rest) =>
      match fromHexChar p, fromHexChar q with
      | None, _ => Err (InvalidByteError p)
      | Some _, None => Err (InvalidByteError q)
      | Some a, Some b =>
          match DecodeString rest with
          | Ok bs => Ok (byte_of_N (a * 16 + b) :: bs)
          | Err e => Err e
          end
      end
  end.

End hex.

(** ** crypto *)

Module crypto.

(** [Hash.Hex], of the hashing library the source imports: the bytes of the
    hash in lower-case hexadecimal after the two characters [0x]. *)
Definition Hash_Hex (h : list byte) : string :=
  String "0" (String "x" (hex.EncodeToString h)).

End crypto.

(** ** RLP *)

(** Modelled from the spec: [mustRLPEncode] is declared in a file of the
    repository that is not among the sources; sections 4.1 and 6 call it the
    canonical, deterministic binary encoding of the record, and the source
    names it RLP.  The module follows the RLP rules as the encoder applies
    them to the field kinds of the two records in the source: byte slices,
    strings, unsigned integers, and a struct as the list of its fields. *)
Module rlp.

(** A field of a struct the source hands to the encoder: a byte slice, a
    string, or an unsigned integer ([uint] or [uint32], already converted). *)
Inductive field : Type :=
| Bytes (b : list byte)
| Text (s : string)
| Uint (i : N).

(** The [n] low-order bytes of [i], most significant first. *)
Fixpoint be_bytes (n : nat) (i : N) : list byte :=
  match n with
  | O => []
  | S n' => be_bytes n' (i / 256) ++ [byte_of_N i]
  end.

(** [intsize]: the least number of bytes that hold the 64-bit value [i]. *)
Fixpoint intsize_from (more : nat) (i : N) : nat :=
  match more with
  | O => 1
  | S more' => if (i / 256 =? 0)%N then 1 else S (intsize_from more' (i / 256))
  end.
Definition intsize (i : N) : nat := intsize_from 7 i.

(** [putint]: [i] in big-endian order without leading zero bytes. *)
Definition putint (i : N) : list byte := be_bytes (intsize i) i.

(** [puthead]: the header of a payload of [size] bytes. *)
Definition puthead (smalltag largetag size : N) : list byte :=
  if (size <? 56)%N then [byte_of_N (smalltag + size)]
  else
    let sizebytes := putint size in
    byte_of_N (largetag + N.of_nat (List.length sizebytes)) :: sizebytes.

Definition encodeStringHeader (size : N) : list byte := puthead 128 183 size.

Definition writeBytes (b : list byte) : list byte :=
  match b with
  | [x] =>
      if (Byte.to_N x <=? 127)%N then [x]
      else encodeStringHeader 1 ++ b
  | _ => encodeStringHeader (N.of_nat (List.length b)) ++ b
  end.

Definition writeUint (i : N) : list byte :=
  if (i =? 0)%N then [byte_of_N 128]
  else if (i <? 128)%N then [byte_of_N i]
  else
    let s := putint i in
    byte_of_N (128 + N.of_nat (List.length s)) :: s.

Definition encode_field (v : field) : list byte :=
  match v with
  | Bytes b => writeBytes b
  | Text s => writeBytes (list_byte_of_string s)
  | Uint i => writeUint i
  end.

(** A struct is encoded as the list of its fields, in declaration order. *)
Definition encode_struct (fields : list field) : list byte :=
  let content := flat_map encode_field fields in
  puthead 192 247 (N.of_nat (List.length content)) ++ content.

(** Reading an encoding back.  [be_value] is the number a big-endian byte
    sequence denotes, and [SplitString] splits an input into the content of
    the byte string encoded at its start and the bytes that follow it. *)
Definition be_value (l : list byte) : N :=
  fold_left (fun acc b => acc * 256 + Byte.to_N b)%N l 0%N.

Definition SplitString (input : list byte) : option (list byte * list byte) :=
  match input with
  | [] => None
  | h :: t =>
      let c := Byte.to_N h in
      if (c <=? 127)%N then Some ([h], t)
      else if (c <=? 183)%N then
        let n := N.to_nat (c - 128) in
        Some (firstn n t, skipn n t)
      else if (c <=? 191)%N then
        let s := N.to_nat (c - 183) in
        let n := N.to_nat (be_value (firstn s t)) in
        Some (firstn n (skipn s t), skipn n (skipn s t))
      else None
  end.

(** The byte string [writeUint] encodes: no byte for zero, otherwise the
    bytes of [putint]. *)
Definition uint_bytes (i : N) : list byte :=
  if (i =? 0)%N then [] else putint i.

End rlp.

(** [mustRLPEncode] panics when the encoder reports an error; the encoder
    reports none for a struct of the field kinds of [rlp.field]. *)
Definition mustRLPEncode (fields : list rlp.field) : list byte :=
  rlp.encode_struct fields.

(** ** cadence and the chain library *)

Module cadence.

(** A [cadence.Value].  Only the dynamic type matters to the source, which
    asserts [cadence.Address] on a field; the other constructors stand for
    the remaining kinds of value.  A [cadence.Address] is an array of eight
    bytes, and [Bytes()] returns them. *)
Inductive Value : Type :=
| Address (bytes : list byte)
| String (s : string)
| Int (i : Z)
| Bool (b : bool).

(** [cadence.Event]. *)
Record Event : Type := { EventType : string; Fields : list Value }.

End cadence.

(** The event record and identifier of the chain library
    ([flow-go/model/flow]). *)
Module flowgo.

(** [flow.Identifier], an array of 32 bytes. *)
Definition Identifier : Type := list byte.

(** [Identifier.String]: the bytes in lowercase hexadecimal. *)
Definition Identifier_String (id : Identifier) : string :=
  hex.EncodeToString id.

Record Event : Type := {
  Type_ : string;
  TransactionID : Identifier;
  TransactionIndex : N;
  EventIndex : N;
  Payload : list byte
}.

End flowgo.

(** What the event model calls outside the repository's sources: the
    SHA3-256 hasher behind [defaultEntityHasher], the canonical JSON encoder
    of cadence values, the Merkle root of the chain library, and the address
    type with its constructor [BytesToAddress]. *)
Class Externals : Type := {
  ComputeHash : list byte -> list byte;
  jsoncdc_Encode : cadence.Event -> result (list byte);
  EventsMerkleRootHash : list flowgo.Event -> result flowgo.Identifier;
  Address : Type;
  BytesToAddress : list byte -> Address
}.

(** ** The event model *)

(** The built-in account event types. *)
Definition EventAccountCreated : string := "flow.AccountCreated".
Definition EventAccountAdded : string := "flow.AccountKeyAdded".
Definition EventAccountKeyRemoved : string := "flow.AccountKeyRemoved".
Definition EventAccountContractAdded : string := "flow.AccountContractAdded".
Definition EventAccountContractUpdated : string :=
  "flow.AccountContractUpdated".
Definition EventAccountContractRemoved : string :=
  "flow.AccountContractRemoved".

(** [Identifier], an array of 32 bytes. *)
Definition Identifier : Type := list byte.

Record Event : Type := {
  Type_ : string;
  TransactionID : Identifier;
  TransactionIndex : Z;
  EventIndex : Z;
  Value : cadence.Event;
  Payload : list byte
}.

(** The values a Go program can hold in an [Event]: 32 identifier bytes,
    64-bit indices, and slice and string lengths that fit an [int]. *)
Definition int_range (x : Z) : Prop := (- 2 ^ 63 <= x < 2 ^ 63)%Z.

Record wf_Event (e : Event) : Prop := {
  wf_TransactionID : List.length (TransactionID e) = 32%nat;
  wf_TransactionIndex : int_range (TransactionIndex e);
  wf_EventIndex : int_range (EventIndex e);
  wf_Type : (Z.of_nat (String.length (Type_ e)) < 2 ^ 63)%Z;
  wf_Payload : (Z.of_nat (List.length (Payload e)) < 2 ^ 63)%Z
}.

(** [Event.Encode]: the RLP encoding of the transaction ID and the event
    index. *)
Definition Encode (e : Event) : list byte :=
  mustRLPEncode
    [ rlp.Bytes (TransactionID e);
      rlp.Uint (uint64 (EventIndex e)) ].

(** [Event.ID]: the hash of [Encode], as [Hash.Hex] renders it. *)
Definition ID `{Externals} (e : Event) : string :=
  crypto.Hash_Hex (ComputeHash (Encode e)).

(** [Event.String]. *)
Definition Event_String `{Externals} (e : Event) : string :=
  Type_ e ++ ": " ++ ID e.

(** [Event.Fingerprint]. *)
Definition Fingerprint (e : Event) : list byte :=
  mustRLPEncode
    [ rlp.Bytes (TransactionID e);
      rlp.Uint (uint32 (EventIndex e));
      rlp.Text (Type_ e);
      rlp.Uint (uint32 (TransactionIndex e));
      rlp.Bytes (Payload e) ].

Definition sdkEventToFlow `{Externals} (event : Event) : result flowgo.Event :=
  match jsoncdc_Encode (Value event) with
  | Err err => Err err
  | Ok payload =>
      Ok {| flowgo.Type_ := Type_ event;
            flowgo.TransactionID := TransactionID event;
            flowgo.TransactionIndex := uint32 (TransactionIndex event);
            flowgo.EventIndex := uint32 (EventIndex event);
            flowgo.Payload := payload |}
  end.

(** The loop of [sdkEventsToFlow]: events are converted in order and the
    first error ends the loop. *)
Fixpoint sdkEventsToFlow `{Externals} (events : list Event)
  : result (list flowgo.Event) :=
  match events with
  | [] => Ok []
  | event :: rest =>
      match sdkEventToFlow event with
      | Err err => Err err
      | Ok flowEvent =>
          match sdkEventsToFlow rest with
          | Err err => Err err
          | Ok flowEvents => Ok (flowEvent :: flowEvents)
          end
      end
  end.

Definition CalculateEventsHash `{Externals} (es : list Event)
  : result (list byte) :=
  match sdkEventsToFlow es with
  | Err err => Err err
  | Ok events =>
      match EventsMerkleRootHash events with
      | Err err => Err err
      | Ok id =>
          match hex.DecodeString (flowgo.Identifier_String id) with
          | Err err => Err err
          | Ok hash => Ok hash
          end
      end
  end.

(** A call that either returns or panics. *)
Inductive outcome (A : Type) : Type :=
| Returns (a : A)
| Panics (reason : string).
Arguments Returns {A} a.
Arguments Panics {A} reason.

(** [AccountCreatedEvent] is the type [Event] under another name. *)
Definition AccountCreatedEvent : Type := Event.

(** [AccountCreatedEvent.Address]: [Fields[0]] panics on an empty field
    list, and the type assertion panics on a field that is no address. *)
Definition AccountCreatedEvent_Address `{Externals} (evt : AccountCreatedEvent)
  : outcome Address :=
  match cadence.Fields (Value evt) with
  | [] => Panics "index out of range"
  | cadence.Address bytes :: _ => Returns (BytesToAddress bytes)
  | _ :: _ => Panics "interface conversion"
  end.

(** ** net/url *)

(** The part of the Go standard library's [net/url] that [mustBuildURL]
    runs: [ParseRequestURI] with the functions it calls.  Where an error
    quotes the offending bytes, its text here stops before the quotation; the
    handler discards these errors. *)
Module url.

Definition code (c : ascii) : N := N_of_ascii c.
Definition between (lo hi c : ascii) : bool :=
  ((code lo <=? code c) && (code c <=? code hi))%N.
Definition is_letter (c : ascii) : bool :=
  between "a" "z" c || between "A" "Z" c.
Definition is_digit (c : ascii) : bool := between "0" "9" c.
Definition one_of (cs : string) (c : ascii) : bool :=
  existsb (Ascii.eqb c) (list_ascii_of_string cs).
Definition quote_char : ascii := ascii_of_N 34.

(** *** The functions of package [strings] the parser uses *)

Definition HasPrefix (s p : string) : bool := String.prefix p s.

Fixpoint ends_with (c : ascii) (s : string) : bool :=
  match s with
  | EmptyString => false
  | String x EmptyString => Ascii.eqb x c
  | String _ rest => ends_with c rest
  end.

Fixpoint Count (c : ascii) (s : string) : nat :=
  match s with
  | EmptyString => 0
  | String x rest => (if Ascii.eqb x c then 1 else 0) + Count c rest
  end.

(** [s[:len(s)-1]]. *)
Fixpoint drop_last (s : string) : string :=
  match s with
  | EmptyString => EmptyString
  | String _ EmptyString => EmptyString
  | String x rest => String x (drop_last rest)
  end.

(** [strings.Cut(s, c)], without its third result: the text before and
    after the first [c], or [s] and the empty string. *)
Fixpoint Cut (c : ascii) (s : string) : string * string :=
  match s with
  | EmptyString => (EmptyString, EmptyString)
  | String x rest =>
      if Ascii.eqb x c then (EmptyString, rest)
      else let '(before, after) := Cut c rest in (String x before, after)
  end.

Fixpoint Index (c : ascii) (s : string) : option nat :=
  match s with
  | EmptyString => None
  | String x rest =>
      if Ascii.eqb x c then Some 0%nat else S <$> Index c rest
  end.

Fixpoint LastIndex (c : ascii) (s : string) : option nat :=
  match s with
  | EmptyString => None
  | String x rest =>
      match LastIndex c rest with
      | Some i => Some (S i)
      | None => if Ascii.eqb x c then Some 0%nat else None
      end
  end.

(** [s[:i]] and [s[i:]]. *)
Definition upto (i : nat) (s : string) : string := substring 0 i s.
Definition from (i : nat) (s : string) : string :=
  substring i (String.length s - i) s.

Definition lower (c : ascii) : ascii :=
  if between "A" "Z" c then ascii_of_N (code c + 32) else c.
Fixpoint ToLower (s : string) : string :=
  match s with
  | EmptyString => EmptyString
  | String c rest => String (lower c) (ToLower rest)
  end.

(** *** Escaping *)

Inductive encoding : Type :=
| encodePath
| encodePathSegment
| encodeHost
| encodeZone
| encodeUserPassword
| encodeQueryComponent
| encodeFragment.

Definition is_host_mode (mode : encoding) : bool :=
  match mode with
  | encodeHost | encodeZone => true
  | _ => false
  end.

Definition ishex (c : ascii) : bool :=
  is_digit c || between "a" "f" c || between "A" "F" c.

Definition unhex (c : ascii) : N :=
  if is_digit c then (code c - 48)%N
  else if between "a" "f" c then (code c - 87)%N
  else if between "A" "F" c then (code c - 55)%N
  else 0%N.

Definition shouldEscape (c : ascii) (mode : encoding) : bool :=
  if is_letter c || is_digit c then false
  else if is_host_mode mode
          && (one_of "!$&'()*+,;=:[]<>" c || Ascii.eqb c quote_char)
  then false
  else if one_of "-_.~" c then false
  else
    let reserved := one_of "$&+,/:;=?@" c in
    match mode with
    | encodePath => if reserved then Ascii.eqb c "?" else true
    | encodePathSegment => if reserved then one_of "/;,?" c else true
    | encodeUserPassword => if reserved then one_of "@/?:" c else true
    | encodeQueryComponent => true
    | encodeFragment => if reserved then false else negb (one_of "!()*" c)
    | encodeHost | encodeZone => true
    end.

Definition EscapeError : error := "invalid URL escape".
Definition InvalidHostError : error := "invalid character in host name".

(** [unescape]: every percent sign must start a two-digit escape; in a
    host or a zone, only some bytes may stand or be escaped. *)
Fixpoint unescape (mode : encoding) (s : string) : result string :=
  match s with
  | EmptyString => Ok EmptyString
  | String c rest =>
      if Ascii.eqb c "%" then
        match rest with
        | String h1 (String h2 rest') =>
            if negb (ishex h1 && ishex h2) then Err EscapeError
            else
              let is25 := Ascii.eqb h1 "2" && Ascii.eqb h2 "5" in
              let v := ascii_of_N (unhex h1 * 16 + unhex h2) in
              match mode with
              | encodeHost =>
                  if (unhex h1 <? 8)%N && negb is25 then Err EscapeError
                  else t ← unescape mode rest'; Ok (String v t)
              | encodeZone =>
                  if negb is25 && negb (Ascii.eqb v " ")
                     && shouldEscape v encodeHost
                  then Err EscapeError
                  else t ← unescape mode rest'; Ok (String v t)
              | _ => t ← unescape mode rest'; Ok (String v t)
              end
        | _ => Err EscapeError
        end
      else if Ascii.eqb c "+" then
        t ← unescape mode rest;
        Ok (String (match mode with
                    | encodeQueryComponent => " "%char
                    | _ => "+"%char
                    end) t)
      else if is_host_mode mode && (code c <? 128)%N
              && shouldEscape c encodeHost
      then Err InvalidHostError
      else t ← unescape mode rest; Ok (String c t)
  end.

Definition upperhex (n : N) : ascii :=
  if (n <? 10)%N then ascii_of_N (48 + n) else ascii_of_N (55 + n).

Fixpoint escape (s : string) (mode : encoding) : string :=
  match s with
  | EmptyString => EmptyString
  | String c rest =>
      if shouldEscape c mode then
        match mode with
        | encodeQueryComponent =>
            if Ascii.eqb c " " then String "+" (escape rest mode)
            else String "%" (String (upperhex (code c / 16))
                   (String (upperhex (code c mod 16)) (escape rest mode)))
        | _ =>
            String "%" (String (upperhex (code c / 16))
              (String (upperhex (code c mod 16)) (escape rest mode)))
        end
      else String c (escape rest mode)
  end.

(** *** Parsing *)

Record Userinfo : Type := {
  username : string;
  password : string;
  passwordSet : bool
}.

(** [url.URL]; [ParseRequestURI] leaves the fragment fields empty, and
    they are not part of the record. *)
Record URL : Type := {
  Scheme : string;
  Opaque : string;
  User : option Userinfo;
  Host : string;
  Path : string;
  RawPath : string;
  ForceQuery : bool;
  RawQuery : string
}.

(** The assignment [u.RawQuery = q]. *)
Definition set_RawQuery (u : URL) (q : string) : URL :=
  {| Scheme := Scheme u; Opaque := Opaque u; User := User u;
     Host := Host u; Path := Path u; RawPath := RawPath u;
     ForceQuery := ForceQuery u; RawQuery := q |}.

Fixpoint stringContainsCTLByte (s : string) : bool :=
  match s with
  | EmptyString => false
  | String c rest =>
      (code c <? 32)%N || (code c =? 127)%N || stringContainsCTLByte rest
  end.

(** The loop of [getScheme] from index [i], at which [s] starts. *)
Fixpoint getScheme_loop (rawURL : string) (i : nat) (s : string)
  : result (string * string) :=
  match s with
  | EmptyString => Ok (EmptyString, rawURL)
  | String c rest =>
      if is_letter c then getScheme_loop rawURL (S i) rest
      else if is_digit c || one_of "+-." c then
        if (i =? 0)%nat then Ok (EmptyString, rawURL)
        else getScheme_loop rawURL (S i) rest
      else if Ascii.eqb c ":" then
        if (i =? 0)%nat then Err "missing protocol scheme"
        else Ok (upto i rawURL, rest)
      else Ok (EmptyString, rawURL)
  end.
Definition getScheme (rawURL : string) : result (string * string) :=
  getScheme_loop rawURL 0 rawURL.

Definition validUserinfo (s : string) : bool :=
  forallb (fun c => is_letter c || is_digit c
                    || one_of "-._:~!$&'()*+,;=%@" c)
          (list_ascii_of_string s).

Definition validOptionalPort (port : string) : bool :=
  match port with
  | EmptyString => true
  | String c digits =>
      Ascii.eqb c ":" && forallb is_digit (list_ascii_of_string digits)
  end.

Definition parseHost (host : string) : result string :=
  if HasPrefix host "[" then
    match LastIndex "]" host with
    | None => Err "missing ']' in host"
    | Some i =>
        if negb (validOptionalPort (from (S i) host))
        then Err "invalid port after host"
        else
          match String.index 0 "%25" (upto i host) with
          | Some zone =>
              host1 ← unescape encodeHost (upto zone host);
              host2 ← unescape encodeZone (substring zone (i - zone) host);
              host3 ← unescape encodeHost (from i host);
              Ok (host1 ++ host2 ++ host3)
          | None => unescape encodeHost host
          end
    end
  else
    match LastIndex ":" host with
    | Some i =>
        if negb (validOptionalPort (from i host))
        then Err "invalid port after host"
        else unescape encodeHost host
    | None => unescape encodeHost host
    end.

Definition parseAuthority (authority : string)
  : result (option Userinfo * string) :=
  match LastIndex "@" authority with
  | None => host ← parseHost authority; Ok (None, host)
  | Some i =>
      host ← parseHost (from (S i) authority);
      let userinfo := upto i authority in
      if negb (validUserinfo userinfo) then Err "net/url: invalid userinfo"
      else
        match Index ":" userinfo with
        | None =>
            name ← unescape encodeUserPassword userinfo;
            Ok (Some {| username := name; password := EmptyString;
                        passwordSet := false |}, host)
        | Some _ =>
            let '(name, pass) := Cut ":" userinfo in
            name ← unescape encodeUserPassword name;
            pass ← unescape encodeUserPassword pass;
            Ok (Some {| username := name; password := pass;
                        passwordSet := true |}, host)
        end
  end.

(** The first step on [rest]: a lone trailing question mark forces an
    empty query, otherwise the query is what follows the first one. *)
Definition split_query (rest : string) : string * string * bool :=
  if ends_with "?" rest && (Count "?" rest =? 1)%nat
  then (drop_last rest, EmptyString, true)
  else let '(before, after) := Cut "?" rest in (before, after, false).

(** [parse(rawURL, viaRequest)] with [viaRequest] true. *)
Definition parse (rawURL : string) : result URL :=
  if stringContainsCTLByte rawURL
  then Err "net/url: invalid control character in URL"
  else if String.eqb rawURL EmptyString then Err "empty url"
  else if String.eqb rawURL "*" then
    Ok {| Scheme := EmptyString; Opaque := EmptyString; User := None;
          Host := EmptyString; Path := "*"; RawPath := EmptyString;
          ForceQuery := false; RawQuery := EmptyString |}
  else
    '(scheme, rest) ← getScheme rawURL;
    let scheme := ToLower scheme in
    let '(rest, rawQuery, forceQuery) := split_query rest in
    if negb (HasPrefix rest "/") then
      if negb (String.eqb scheme EmptyString) then
        Ok {| Scheme := scheme; Opaque := rest; User := None;
              Host := EmptyString; Path := EmptyString;
              RawPath := EmptyString;
              ForceQuery := forceQuery; RawQuery := rawQuery |}
      else Err "invalid URI for request"
    else
      '(user, host, rest) ←
        (if negb (String.eqb scheme EmptyString) && HasPrefix rest "//" then
           let authority := from 2 rest in
           let '(authority, rest) :=
             match Index "/" authority with
             | Some i => (upto i authority, from i authority)
             | None => (authority, EmptyString)
             end in
           '(user, host) ← parseAuthority authority;
           Ok (user, host, rest)
         else Ok (None, EmptyString, rest));
      path ← unescape encodePath rest;
      Ok {| Scheme := scheme; Opaque := EmptyString; User := user;
            Host := host; Path := path;
            RawPath := if String.eqb rest (escape path encodePath)
                       then EmptyString else rest;
            ForceQuery := forceQuery; RawQuery := rawQuery |}.

(** The message of [&url.Error{"parse", rawURL, err}]; the URL is quoted as
    it stands. *)
Definition Error (op rawURL : string) (err : error) : error :=
  op ++ " " ++ String quote_char (rawURL ++ String quote_char ": ") ++ err.

Definition ParseRequestURI (rawURL : string) : result URL :=
  match parse rawURL with
  | Ok u => Ok u
  | Err err => Err (Error "parse" rawURL err)
  end.

(** [url.Values], a map from a key to the list of its values, and
    [Values.Add]. *)
Definition Values : Type := gmap string (list string).

Definition Values_Add (v : Values) (key value : string) : Values :=
  <[key := (default [] (v !! key) ++ [value])%list]> v.

End url.

(** ** The HTTP handler *)

(** [http.Client]; every constructor stores [http.DefaultClient]. *)
Inductive Client : Type := DefaultClient.

Record Handler : Type := { client : Client; base : string }.

Definition NewHandler (baseUrl : string) : result Handler :=
  Ok {| client := DefaultClient; base := baseUrl |}.

Definition NewDefaultEmulatorHandler : Handler :=
  {| client := DefaultClient; base := "http:127.0.0.1:8888/v1" |}.

Definition NewDefaultTestnetHandler : Handler :=
  {| client := DefaultClient; base := "https://rest-testnet.onflow.org/v1/" |}.

Definition NewDefaultMainnetHandler : Handler :=
  {| client := DefaultClient; base := "https://rest-mainnet.onflow.org/v1/" |}.

(** [mustBuildURL]: the parse error is dropped, and with it the handler keeps
    the nil pointer ([None]) the parser returns beside an error. *)
Definition mustBuildURL (h : Handler) (path : string) : option url.URL :=
  match url.ParseRequestURI (base h ++ path) with
  | Ok u => Some u
  | Err _ => None
  end.

(** *** Requests, responses and programs *)

(** A request as the client receives it: the URL text, and for a POST the
    content type and the body. *)
Inductive Request : Type :=
| GET (target : string)
| POST (target contentType body : string).

(** What the handler reads of a response: the status code and the outcome
    of [ioutil.ReadAll(res.Body)]. *)
Record Response : Type := { StatusCode : Z; Body : result string }.

(** A handler operation: it returns, panics, or hands a request to the
    client and goes on with the client's answer, a response or an error. *)
Inductive prog (A : Type) : Type :=
| Ret (a : A)
| Panic (reason : string)
| Call (req : Request) (k : result Response -> prog A).
Arguments Ret {A} a.
Arguments Panic {A} reason.
Arguments Call {A} req k.

Fixpoint prog_bind {A B : Type} (f : A -> prog B) (p : prog A) : prog B :=
  match p with
  | Ret a => f a
  | Panic reason => Panic reason
  | Call req k => Call req (fun reply => prog_bind f (k reply))
  end.
#[global] Instance prog_mret : MRet prog := @Ret.
#[global] Instance prog_mbind : MBind prog := @prog_bind.

(** The network: the client's answer to each request. *)
Definition transport : Type := Request -> result Response.

Fixpoint run {A : Type} (net : transport) (p : prog A) : outcome A :=
  match p with
  | Ret a => Returns a
  | Panic reason => Panics reason
  | Call req k => run net (k (net req))
  end.

(** The requests a program issues, in order. *)
Fixpoint requests {A : Type} (net : transport) (p : prog A) : list Request :=
  match p with
  | Ret _ | Panic _ => []
  | Call req k => req :: requests net (k (net req))
  end.

Definition nil_dereference : string :=
  "invalid memory address or nil pointer dereference".

(** *** The libraries behind the handler *)

(** [json.Unmarshal] into a variable of type [A] through a pointer to it:
    the new value of the variable, and the error if any. *)
Class JSONTarget (A : Type) : Type :=
  json_Unmarshal : string -> A -> A * option error.

(** [models.ScriptsBody]. *)
Record ScriptsBody : Type := { Script : string; Arguments : list string }.

(** What the handler calls outside the repository's sources: the rendering
    of a URL, the parsing and encoding of a query, the JSON encoder and
    decoder, and the response models with their zero values. *)
Class Library : Type := {
  URL_String : url.URL -> string;
  ParseQuery : string -> url.Values;
  Values_Encode : url.Values -> string;
  json_Marshal : ScriptsBody -> result string;
  json_Unmarshal_value : string -> option error;
  Block : Type;
  Account : Type;
  Collection : Type;
  Transaction : Type;
  Block_zero : Block;
  Account_zero : Account;
  Collection_zero : Collection;
  Transaction_zero : Transaction;
  Block_json :: JSONTarget Block;
  Account_json :: JSONTarget Account;
  Collection_json :: JSONTarget Collection;
  Transaction_json :: JSONTarget Transaction;
  string_json :: JSONTarget string
}.

(** [URL.Query]: the parsed [RawQuery], parse errors dropped. *)
Definition URL_Query `{Library} (u : url.URL) : url.Values :=
  ParseQuery (url.RawQuery u).

(** The [model interface{}] argument of [get] and [post].  A caller passes
    the address of its variable ([&block]) or the variable itself
    ([blocks]).  [json.Unmarshal(body, &model)] follows a non-nil pointer
    held by the interface and decodes into the variable it points to; any
    other value held by the interface is replaced, in the parameter [model]
    only, by the decoded JSON value. *)
Inductive iface (A : Type) : Type :=
| Pointer (T : JSONTarget A) (pointee : A)
| Plain (v : A).
Arguments Pointer {A T} pointee.
Arguments Plain {A} v.

(** The value of the caller's variable. *)
Definition referent {A : Type} (model : iface A) : A :=
  match model with
  | Pointer x => x
  | Plain v => v
  end.

(** [json.Unmarshal(body, &model)]: the value of the caller's variable
    afterwards, and the error. *)
Definition Unmarshal `{Library} {A : Type} (body : string) (model : iface A)
  : A * option error :=
  match model with
  | Pointer x => json_Unmarshal body x
  | Plain v => (v, json_Unmarshal_value body)
  end.

(** [%d] of an [int]. *)
Definition itoa (n : Z) : string := NilZero.string_of_int (Z.to_int n).

(** *** Transport primitives *)

(** [get] and [post] return the error and, beside it, the value the caller's
    variable holds after the call. *)
Definition get `{Library} {A : Type} (h : Handler) (u : option url.URL)
  (model : iface A) : prog (option error * A) :=
  match u with
  | None => Panic nil_dereference
  | Some u =>
      Call (GET (URL_String u)) (fun reply =>
        match reply with
        | Err err =>
            Ret (Some (errors_Wrap err
                         ("HTTP GET " ++ URL_String u ++ " failed")),
                 referent model)
        | Ok res =>
            match Body res with
            | Err err => Ret (Some err, referent model)
            | Ok body =>
                if (StatusCode res >=? 400)%Z then
                  Ret (Some ("HTTP GET " ++ URL_String u
                             ++ " failed, status code: "
                             ++ itoa (StatusCode res)
                             ++ ", response :" ++ body),
                       referent model)
                else
                  let '(x, err) := Unmarshal body model in
                  match err with
                  | Some err =>
                      Ret (Some (errors_Wrap err "JSON decoding failed"), x)
                  | None => Ret (None, x)
                  end
            end
        end)
  end.

Definition post `{Library} {A : Type} (h : Handler) (u : option url.URL)
  (body : string) (model : iface A) : prog (option error * A) :=
  match u with
  | None => Panic nil_dereference
  | Some u =>
      Call (POST (URL_String u) "application/json" body) (fun reply =>
        match reply with
        | Err err =>
            Ret (Some (errors_Wrap err
                         ("HTTP POST " ++ URL_String u ++ " failed")),
                 referent model)
        | Ok res =>
            match Body res with
            | Err err => Ret (Some err, referent model)
            | Ok responseBody =>
                if (StatusCode res >=? 400)%Z then
                  Ret (Some ("HTTP POST " ++ URL_String u
                             ++ " failed, status code: "
                             ++ itoa (StatusCode res)
                             ++ ", response :" ++ responseBody),
                       referent model)
                else
                  let '(x, err) := Unmarshal responseBody model in
                  match err with
                  | Some err =>
                      Ret (Some (errors_Wrap err "JSON decoding failed"), x)
                  | None => Ret (None, x)
                  end
            end
        end)
  end.

(** The statements [q := u.Query(); q.Add(key, value); u.RawQuery =
    q.Encode()] on a non-nil [u]. *)
Definition add_query `{Library} (u : url.URL) (key value : string) : url.URL :=
  url.set_RawQuery u (Values_Encode (url.Values_Add (URL_Query u) key value)).

(** The request [executeScriptAt] issues for a query of the one entry
    [key], [value], on the URL [u] built for the path. *)
Definition script_request `{Library} (u : url.URL) (key value body : string)
  : Request :=
  POST (URL_String (add_query u key value)) "application/json" body.

(** *** Operations *)

Definition getBlockByID `{Library} (h : Handler) (ID : string)
  : prog (result Block) :=
  '(err, block) ← get h (mustBuildURL h ("/blocks/" ++ ID)) (Pointer Block_zero);
  match err with
  | Some err => Ret (Err (errors_Wrap err ("get block ID " ++ ID ++ " failed")))
  | None => Ret (Ok block)
  end.

Definition getBlockByHeight `{Library} (h : Handler) (height : string)
  : prog (result (list Block)) :=
  match mustBuildURL h "/blocks" with
  | None => Panic nil_dereference
  | Some u =>
      let u := add_query u "height" height in
      let blocks : list Block := [] in
      '(err, blocks) ← get h (Some u) (Plain blocks);
      match err with
      | Some err =>
          Ret (Err (errors_Wrap err
                      ("get block by height " ++ height ++ " failed")))
      | None =>
          if (List.length blocks =? 0)%nat then Ret (Err "blocks not found")
          else Ret (Ok blocks)
      end
  end.

Definition getAccount `{Library} (h : Handler) (address height : string)
  : prog (result Account) :=
  match mustBuildURL h ("/accounts/" ++ address) with
  | None => Panic nil_dereference
  | Some u =>
      let u := add_query u "height" height in
      '(err, account) ← get h (Some u) (Pointer Account_zero);
      match err with
      | Some err =>
          Ret (Err (errors_Wrap err ("get account " ++ address ++ " failed")))
      | None => Ret (Ok account)
      end
  end.

Definition getCollection `{Library} (h : Handler) (ID : string)
  : prog (result Collection) :=
  '(err, collection) ←
    get h (mustBuildURL h ("/collections/" ++ ID)) (Pointer Collection_zero);
  match err with
  | Some err => Ret (Err err)
  | None => Ret (Ok collection)
  end.

(** [query] lists the entries of the map argument in the order the [range]
    loop visits them. *)
Definition executeScriptAt `{Library} (h : Handler)
  (query : list (string * string)) (script : string) (arguments : list string)
  : prog (result string) :=
  match mustBuildURL h "/scripts" with
  | None => Panic nil_dereference
  | Some u =>
      let q := fold_left (fun q kv => url.Values_Add q (fst kv) (snd kv))
                 query (URL_Query u) in
      let u := url.set_RawQuery u (Values_Encode q) in
      match json_Marshal {| Script := script; Arguments := arguments |} with
      | Err err => Ret (Err err)
      | Ok body =>
          '(err, result) ← post h (Some u) body (Pointer EmptyString);
          match err with
          | Some err => Ret (Err err)
          | None => Ret (Ok result)
          end
      end
  end.

Definition executeScriptAtBlockHeight `{Library} (h : Handler)
  (height script : string) (arguments : list string) : prog (result string) :=
  executeScriptAt h [("block_height", height)] script arguments.

Definition executeScriptAtBlockID `{Library} (h : Handler)
  (ID script : string) (arguments : list string) : prog (result string) :=
  executeScriptAt h [("block_id", ID)] script arguments.

Definition getTransaction `{Library} (h : Handler) (ID : string)
  (includeResult : bool) : prog (result Transaction) :=
  let fetch (u : option url.URL) : prog (result Transaction) :=
    '(err, transaction) ← get h u (Pointer Transaction_zero);
    match err with
    | Some err =>
        Ret (Err (errors_Wrap err ("get transaction " ++ ID ++ " failed")))
    | None => Ret (Ok transaction)
    end in
  let u := mustBuildURL h ("/transactions/" ++ ID) in
  if includeResult then
    match u with
    | None => Panic nil_dereference
    | Some u => fetch (Some (add_query u "expand" "result"))
    end
  else fetch u.

Definition sendTransaction `{Library} (h : Handler) (transaction : string)
  : prog (option error) :=
  '(err, _) ←
    post h (mustBuildURL h "/transactions") transaction
      (Pointer Transaction_zero);
  Ret err.

(** ** Sample values *)

(** Stand-ins for the outside libraries, for running the model on concrete
    inputs: the hasher returns its input, the JSON encoder of cadence values
    returns the bytes of the event type, and the Merkle root is 32 zero
    bytes. *)
Definition sample_externals : Externals := {|
  ComputeHash := fun b => b;
  jsoncdc_Encode := fun v => Ok (list_byte_of_string (cadence.EventType v));
  EventsMerkleRootHash := fun _ => Ok (repeat x00 32);
  Address := list byte;
  BytesToAddress := fun b => b
|}.

Definition sample_event : Event := {|
  Type_ := EventAccountCreated;
  TransactionID := repeat x01 32;
  TransactionIndex := 2;
  EventIndex := 0;
  Value := {| cadence.EventType := EventAccountCreated;
              cadence.Fields := [cadence.Address (repeat x07 8)] |};
  Payload := [x7b; x7d]
|}.

(** The event [e] with one field changed. *)
Definition with_Type (e : Event) (t : string) : Event :=
  {| Type_ := t; TransactionID := TransactionID e;
     TransactionIndex := TransactionIndex e; EventIndex := EventIndex e;
     Value := Value e; Payload := Payload e |}.
Definition with_TransactionID (e : Event) (id : Identifier) : Event :=
  {| Type_ := Type_ e; TransactionID := id;
     TransactionIndex := TransactionIndex e; EventIndex := EventIndex e;
     Value := Value e; Payload := Payload e |}.
Definition with_TransactionIndex (e : Event) (i : Z) : Event :=
  {| Type_ := Type_ e; TransactionID := TransactionID e;
     TransactionIndex := i; EventIndex := EventIndex e;
     Value := Value e; Payload := Payload e |}.
Definition with_EventIndex (e : Event) (i : Z) : Event :=
  {| Type_ := Type_ e; TransactionID := TransactionID e;
     TransactionIndex := TransactionIndex e; EventIndex := i;
     Value := Value e; Payload := Payload e |}.
Definition with_Value (e : Event) (v : cadence.Event) : Event :=
  {| Type_ := Type_ e; TransactionID := TransactionID e;
     TransactionIndex := TransactionIndex e; EventIndex := EventIndex e;
     Value := v; Payload := Payload e |}.
Definition with_Payload (e : Event) (p : list byte) : Event :=
  {| Type_ := Type_ e; TransactionID := TransactionID e;
     TransactionIndex := TransactionIndex e; EventIndex := EventIndex e;
     Value := Value e; Payload := p |}.

(** A library for the handler: a URL is rendered as its path and query, no
    query is ever parsed out of a URL, a query is encoded entry by entry as
    the key, an equals sign and the values, and every model is the response
    body it was decoded from. *)
Definition sample_target : JSONTarget string := fun body _ => (body, None).

Definition sample_library : Library := {|
  URL_String := fun u => url.Path u ++ "?" ++ url.RawQuery u;
  ParseQuery := fun _ => ∅;
  Values_Encode := fun v =>
    String.concat "&"
      (map (fun kv => fst kv ++ "=" ++ String.concat "," (snd kv))
         (map_to_list v));
  json_Marshal := fun b => Ok (Script b);
  json_Unmarshal_value := fun _ => None;
  Block := string;
  Account := string;
  Collection := string;
  Transaction := string;
  Block_zero := EmptyString;
  Account_zero := EmptyString;
  Collection_zero := EmptyString;
  Transaction_zero := EmptyString;
  Block_json := sample_target;
  Account_json := sample_target;
  Collection_json := sample_target;
  Transaction_json := sample_target;
  string_json := sample_target
|}.

Definition sample_url : url.URL := {|
  url.Scheme := "https"; url.Opaque := EmptyString; url.User := None;
  url.Host := "rest-testnet.onflow.org"; url.Path := "/v1/blocks";
  url.RawPath := EmptyString; url.ForceQuery := false;
  url.RawQuery := EmptyString
|}.

(** A base made of letters, digits, plus, minus and dot only, and not empty:
    a bare host name such as "localhost", written without a scheme. *)
Definition bare_name (baseUrl : string) : bool :=
  negb (String.eqb baseUrl EmptyString)
  && forallb (fun c => url.is_letter c || url.is_digit c || url.one_of "+-." c)
       (list_ascii_of_string baseUrl).

(** A handler over the empty base. *)
Definition empty_handler : Handler :=
  {| client := DefaultClient; base := EmptyString |}.

(** The URL the parser builds from an absolute path alone. *)
Definition path_only (path : string) : url.URL := {|
  url.Scheme := EmptyString; url.Opaque := EmptyString; url.User := None;
  url.Host := EmptyString; url.Path := path; url.RawPath := EmptyString;
  url.ForceQuery := false; url.RawQuery := EmptyString
|}.

(** A network that answers every request with the same response. *)
Definition constant_net (status : Z) (body : string) : transport :=
  fun _ => Ok {| StatusCode := status; Body := Ok body |}.

(** [sub] occurs in [s]. *)
Definition contains (sub s : string) : Prop :=
  exists before after : string, s = before ++ sub ++ after.

(** The part of [wf_Event] that bounds the three byte fields. *)
Definition sizes_fit (e : Event) : Prop :=
  List.length (TransactionID e) = 32%nat
  /\ (Z.of_nat (String.length (Type_ e)) < 2 ^ 63)%Z
  /\ (Z.of_nat (List.length (Payload e)) < 2 ^ 63)%Z.

(** Two events that agree on every field but [Payload]. *)
Definition agree_except_Payload (e1 e2 : Event) : Prop :=
  Type_ e1 = Type_ e2
  /\ TransactionID e1 = TransactionID e2
  /\ TransactionIndex e1 = TransactionIndex e2
  /\ EventIndex e1 = EventIndex e2
  /\ Value e1 = Value e2.

(** A text made of letters, digits, slash, minus, underscore and dot: the
    paths of the operations for identifiers, addresses and heights written
    in hexadecimal or decimal. *)
Definition plain_path (path : string) : bool :=
  forallb (fun c => url.is_letter c || url.is_digit c || url.one_of "/-_." c)
    (list_ascii_of_string path).

(** A URL of a scheme and an opaque text, and a URL of a scheme, a host and
    a path, with nothing else set. *)
Definition opaque_URL (scheme opaque : string) : url.URL := {|
  url.Scheme := scheme; url.Opaque := opaque; url.User := None;
  url.Host := EmptyString; url.Path := EmptyString;
  url.RawPath := EmptyString; url.ForceQuery := false;
  url.RawQuery := EmptyString
|}.

Definition host_URL (scheme host path : string) : url.URL := {|
  url.Scheme := scheme; url.Opaque := EmptyString; url.User := None;
  url.Host := host; url.Path := path; url.RawPath := EmptyString;
  url.ForceQuery := false; url.RawQuery := EmptyString
|}.

(** * Properties *)

(** ** Bytes and hexadecimal text *)

Lemma to_N_byte_of_N (n : N) : Byte.to_N (byte_of_N n) = (n mod 256)%N.
Proof.
  unfold byte_of_N.
  destruct (Byte.of_N (n mod 256)) as [b|] eqn:E.
  - now apply Byte.to_of_N.
  - apply Byte.of_N_None_iff in E.
    pose proof (N.mod_upper_bound n 256). lia.
Qed.

Lemma byte_of_N_to_N (b : byte) : byte_of_N (Byte.to_N b) = b.
Proof.
  unfold byte_of_N.
  rewrite N.mod_small by (pose proof (Byte.to_N_bounded b); lia).
  now rewrite Byte.of_to_N.
Qed.

Lemma fromHexChar_high (b : byte) :
  hex.fromHexChar (hex.hexchar (Byte.to_N b / 16)) = Some (Byte.to_N b / 16)%N.
Proof. destruct b; reflexivity. Qed.

Lemma fromHexChar_low (b : byte) :
  hex.fromHexChar (hex.hexchar (Byte.to_N b mod 16))
  = Some (Byte.to_N b mod 16)%N.
Proof. destruct b; reflexivity. Qed.

Lemma nibbles_byte (b : byte) :
  byte_of_N (Byte.to_N b / 16 * 16 + Byte.to_N b mod 16) = b.
Proof.
  rewrite <- (byte_of_N_to_N b) at 3. f_equal.
  pose proof (N.div_mod (Byte.to_N b) 16). lia.
Qed.

Example hex_roundtrip_sample :
  hex.EncodeToString [x00; xff; x1a] = "00ff1a"
  /\ hex.DecodeString "00ff1a" = Ok [x00; xff; x1a]
  /\ hex.DecodeString "00f" = Err hex.ErrLength
  /\ hex.DecodeString "0g" = Err (hex.InvalidByteError "g").
Proof. repeat split. Qed.

(** Decoding the hexadecimal text of a byte sequence gives the sequence
    back, without an error. *)
Lemma DecodeString_EncodeToString (bs : list byte) :
  hex.DecodeString (hex.EncodeToString bs) = Ok bs.
Proof.
  induction bs as [|b bs IH]; [reflexivity|].
  cbn [hex.EncodeToString hex.DecodeString].
  rewrite fromHexChar_high, fromHexChar_low, IH, nibbles_byte.
  reflexivity.
Qed.

(** ** RLP encodings can be read back *)

Example rlp_sample :
  mustRLPEncode [rlp.Text "cat"; rlp.Text "dog"]
  = [xc8; x83; x63; x61; x74; x83; x64; x6f; x67]
  /\ rlp.encode_field (rlp.Uint 1024) = [x82; x04; x00]
  /\ rlp.encode_field (rlp.Uint 0) = [x80]
  /\ rlp.encode_field (rlp.Uint 15) = [x0f]
  /\ rlp.encode_field (rlp.Bytes [x80]) = [x81; x80]
  /\ rlp.SplitString [x83; x63; x61; x74; x83] = Some ([x63; x61; x74], [x83]).
Proof. repeat split. Qed.

Section RLP.
Local Open Scope N_scope.

Lemma be_bytes_length (n : nat) (i : N) : List.length (rlp.be_bytes n i) = n.
Proof.
  revert i; induction n as [|n IH]; intros i; cbn; [reflexivity|].
  rewrite length_app, IH. cbn. lia.
Qed.

Lemma be_value_snoc (l : list byte) (b : byte) :
  rlp.be_value (l ++ [b]) = rlp.be_value l * 256 + Byte.to_N b.
Proof. unfold rlp.be_value. now rewrite fold_left_app. Qed.

Lemma be_value_be_bytes (n : nat) (i : N) :
  rlp.be_value (rlp.be_bytes n i) = i mod 256 ^ N.of_nat n.
Proof.
  revert i; induction n as [|n IH]; intros i.
  - cbn. now rewrite N.mod_1_r.
  - cbn [rlp.be_bytes]. rewrite be_value_snoc, IH, to_N_byte_of_N.
    rewrite Nat2N.inj_succ, N.pow_succ_r'.
    rewrite N.Div0.mod_mul_r. lia.
Qed.

Lemma intsize_from_range (more : nat) (i : N) :
  (1 <= rlp.intsize_from more i <= S more)%nat.
Proof.
  revert i; induction more as [|m IH]; intros i; cbn; [lia|].
  destruct (i / 256 =? 0); [lia|]. specialize (IH (i / 256)). lia.
Qed.

Lemma intsize_from_fits (more : nat) (i : N) :
  i < 256 ^ N.of_nat (S more) ->
  i < 256 ^ N.of_nat (rlp.intsize_from more i).
Proof.
  revert i; induction more as [|m IH]; intros i Hi; [exact Hi|].
  cbn [rlp.intsize_from].
  destruct (i / 256 =? 0) eqn:E.
  - apply N.eqb_eq in E. change (256 ^ N.of_nat 1) with 256.
    pose proof (N.div_mod i 256). pose proof (N.mod_upper_bound i 256). lia.
  - rewrite Nat2N.inj_succ, N.pow_succ_r' in Hi |- *.
    assert (Hq : i / 256 < 256 ^ N.of_nat (S m))
      by (apply N.Div0.div_lt_upper_bound; lia).
    specialize (IH _ Hq).
    pose proof (N.div_mod i 256). pose proof (N.mod_upper_bound i 256). lia.
Qed.

Lemma intsize_from_mono (more : nat) (i j : N) :
  i <= j -> (rlp.intsize_from more i <= rlp.intsize_from more j)%nat.
Proof.
  revert i j; induction more as [|m IH]; intros i j Hij; cbn; [lia|].
  assert (Hq : i / 256 <= j / 256) by (apply N.Div0.div_le_mono; lia).
  destruct (i / 256 =? 0) eqn:Ei, (j / 256 =? 0) eqn:Ej;
    rewrite ?N.eqb_eq, ?N.eqb_neq in *; try lia.
  - exfalso. apply Ei, N.le_0_r. now rewrite <- Ej.
  - specialize (IH _ _ Hq). lia.
Qed.

Lemma putint_length (i : N) : (1 <= List.length (rlp.putint i) <= 8)%nat.
Proof.
  unfold rlp.putint. rewrite be_bytes_length.
  apply (intsize_from_range 7).
Qed.

Lemma be_value_putint (i : N) : i < 2 ^ 64 -> rlp.be_value (rlp.putint i) = i.
Proof.
  intros Hi. unfold rlp.putint. rewrite be_value_be_bytes.
  apply N.mod_small. apply (intsize_from_fits 7). exact Hi.
Qed.

(** A header that announces the length of what follows can be split off:
    short form, then long form. *)
Lemma SplitString_short (n : N) (a r : list byte) :
  n < 56 -> N.of_nat (List.length a) = n ->
  rlp.SplitString (byte_of_N (128 + n) :: a ++ r) = Some (a, r).
Proof.
  intros Hn Hlen. unfold rlp.SplitString.
  rewrite to_N_byte_of_N, N.mod_small by lia.
  destruct (128 + n <=? 127) eqn:E1; [apply N.leb_le in E1; lia|].
  destruct (128 + n <=? 183) eqn:E2; [|apply N.leb_gt in E2; lia].
  rewrite take_app_length', drop_app_length' by lia. reflexivity.
Qed.

Lemma SplitString_long (a r : list byte) :
  56 <= N.of_nat (List.length a) < 2 ^ 64 ->
  rlp.SplitString
    (byte_of_N (183 + N.of_nat (List.length (rlp.putint (N.of_nat (List.length a)))))
       :: rlp.putint (N.of_nat (List.length a)) ++ a ++ r)
  = Some (a, r).
Proof.
  intros [Hlo Hhi]. unfold rlp.SplitString.
  pose proof (putint_length (N.of_nat (List.length a))) as Hs.
  set (s := rlp.putint (N.of_nat (List.length a))) in *.
  rewrite to_N_byte_of_N, N.mod_small by lia.
  destruct (183 + N.of_nat (List.length s) <=? 127) eqn:E1;
    [apply N.leb_le in E1; lia|].
  destruct (183 + N.of_nat (List.length s) <=? 183) eqn:E2;
    [apply N.leb_le in E2; lia|].
  destruct (183 + N.of_nat (List.length s) <=? 191) eqn:E3;
    [|apply N.leb_gt in E3; lia].
  rewrite take_app_length', drop_app_length' by lia.
  subst s. rewrite be_value_putint by exact Hhi.
  rewrite take_app_length', drop_app_length' by lia. reflexivity.
Qed.

Lemma SplitString_header (a r : list byte) :
  N.of_nat (List.length a) < 2 ^ 64 ->
  rlp.SplitString
    (rlp.encodeStringHeader (N.of_nat (List.length a)) ++ a ++ r)
  = Some (a, r).
Proof.
  intros Hlen. unfold rlp.encodeStringHeader, rlp.puthead.
  destruct (N.of_nat (List.length a) <? 56) eqn:E.
  - apply N.ltb_lt in E. cbn [app]. now apply SplitString_short.
  - apply N.ltb_ge in E. cbn [app]. now apply SplitString_long.
Qed.

(** [SplitString] reads back what [writeBytes] wrote, whatever follows. *)
Lemma SplitString_writeBytes (a r : list byte) :
  N.of_nat (List.length a) < 2 ^ 64 ->
  rlp.SplitString (rlp.writeBytes a ++ r) = Some (a, r).
Proof.
  intros Hlen. unfold rlp.writeBytes.
  destruct a as [|x [|y a]].
  - rewrite <- app_assoc. now apply SplitString_header.
  - destruct (Byte.to_N x <=? 127) eqn:E.
    + cbn. now rewrite E.
    + rewrite <- app_assoc. now apply (SplitString_header [x]).
  - rewrite <- app_assoc. now apply SplitString_header.
Qed.

(** An unsigned integer is written as the byte string of its big-endian
    digits. *)
Lemma writeUint_as_bytes (i : N) :
  rlp.writeUint i = rlp.writeBytes (rlp.uint_bytes i).
Proof.
  unfold rlp.writeUint, rlp.uint_bytes.
  destruct (i =? 0) eqn:E0; [reflexivity|]. apply N.eqb_neq in E0.
  unfold rlp.putint, rlp.intsize.
  change (rlp.intsize_from 7 i)
    with (if i / 256 =? 0 then 1%nat else S (rlp.intsize_from 6 (i / 256))).
  destruct (i / 256 =? 0) eqn:Eq.
  - apply N.eqb_eq in Eq.
    assert (Hi : i < 256).
    { pose proof (N.div_mod i 256). pose proof (N.mod_upper_bound i 256). lia. }
    cbn [rlp.be_bytes app List.length rlp.writeBytes].
    rewrite to_N_byte_of_N, N.mod_small by exact Hi.
    destruct (i <? 128) eqn:E1.
    + apply N.ltb_lt in E1.
      destruct (i <=? 127) eqn:E2; [reflexivity|apply N.leb_gt in E2; lia].
    + apply N.ltb_ge in E1.
      destruct (i <=? 127) eqn:E2; [apply N.leb_le in E2; lia|reflexivity].
  - apply N.eqb_neq in Eq.
    assert (Hi : 256 <= i).
    { destruct (N.lt_ge_cases i 256) as [Hlt|]; [|assumption].
      apply N.div_small in Hlt. contradiction. }
    destruct (i <? 128) eqn:E1; [apply N.ltb_lt in E1; lia|].
    set (k := rlp.intsize_from 6 (i / 256)) in *.
    pose proof (intsize_from_range 6 (i / 256)) as Hk. fold k in Hk.
    pose proof (be_bytes_length (S k) i) as Hl.
    destruct (rlp.be_bytes (S k) i) as [|x [|y s]] eqn:Es;
      cbn [List.length] in Hl; try lia.
    unfold rlp.writeBytes, rlp.encodeStringHeader, rlp.puthead.
    destruct (N.of_nat (List.length (x :: y :: s)) <? 56) eqn:E2;
      [reflexivity|].
    apply N.ltb_ge in E2. cbn [List.length] in E2. lia.
Qed.

Lemma uint_bytes_length (i : N) : (List.length (rlp.uint_bytes i) <= 8)%nat.
Proof.
  unfold rlp.uint_bytes. destruct (i =? 0); [cbn; lia|].
  apply putint_length.
Qed.

Lemma be_value_uint_bytes (i : N) :
  i < 2 ^ 64 -> rlp.be_value (rlp.uint_bytes i) = i.
Proof.
  intros Hi. unfold rlp.uint_bytes. destruct (i =? 0) eqn:E.
  - apply N.eqb_eq in E. now subst.
  - now apply be_value_putint.
Qed.

Lemma SplitString_writeUint (i : N) (r : list byte) :
  rlp.SplitString (rlp.writeUint i ++ r) = Some (rlp.uint_bytes i, r).
Proof.
  rewrite writeUint_as_bytes. apply SplitString_writeBytes.
  pose proof (uint_bytes_length i). lia.
Qed.

(** The length of a header does not shrink when the payload grows, so an
    encoded struct determines its payload. *)
Lemma puthead_length_mono (small large n m : N) :
  n <= m ->
  (List.length (rlp.puthead small large n)
   <= List.length (rlp.puthead small large m))%nat.
Proof.
  intros Hnm. unfold rlp.puthead.
  destruct (n <? 56) eqn:En, (m <? 56) eqn:Em;
    rewrite ?N.ltb_lt, ?N.ltb_ge in *; cbn [List.length]; try lia.
  unfold rlp.putint. rewrite !be_bytes_length.
  pose proof (intsize_from_mono 7 n m Hnm). unfold rlp.intsize. lia.
Qed.

Lemma puthead_payload_inj (small large : N) (c1 c2 : list byte) :
  (rlp.puthead small large (N.of_nat (List.length c1)) ++ c1
   = rlp.puthead small large (N.of_nat (List.length c2)) ++ c2)%list ->
  c1 = c2.
Proof.
  intros H.
  assert (Hlen : List.length c1 = List.length c2).
  { pose proof (f_equal (@List.length byte) H) as HL.
    rewrite !length_app in HL.
    destruct (Nat.lt_trichotomy (List.length c1) (List.length c2))
      as [Hlt|[Heq|Hgt]]; [|exact Heq|].
    - pose proof (puthead_length_mono small large
                    (N.of_nat (List.length c1)) (N.of_nat (List.length c2))).
      lia.
    - pose proof (puthead_length_mono small large
                    (N.of_nat (List.length c2)) (N.of_nat (List.length c1))).
      lia. }
  rewrite Hlen in H. now apply app_inv_head in H.
Qed.

End RLP.

(** ** Event identifiers and fingerprints *)

Lemma uint32_bound (x : Z) : (uint32 x < 2 ^ 32)%N.
Proof.
  unfold uint32. pose proof (Z.mod_pos_bound x (2 ^ 32) ltac:(lia)). lia.
Qed.

Lemma list_byte_of_string_length (s : string) :
  List.length (list_byte_of_string s) = String.length s.
Proof.
  unfold list_byte_of_string. rewrite length_map.
  induction s as [|c s IH]; cbn; congruence.
Qed.

Lemma list_byte_of_string_inj (s t : string) :
  list_byte_of_string s = list_byte_of_string t -> s = t.
Proof.
  intros H. apply (f_equal string_of_list_byte) in H.
  now rewrite !string_of_list_byte_of_string in H.
Qed.

Lemma uint_bytes_inj (i j : N) :
  (i < 2 ^ 64)%N -> (j < 2 ^ 64)%N ->
  rlp.uint_bytes i = rlp.uint_bytes j -> i = j.
Proof.
  intros Hi Hj H. apply (f_equal rlp.be_value) in H.
  now rewrite !be_value_uint_bytes in H.
Qed.

(** From an equation [H] between two field sequences, read the first field
    of each side: [Hfield] equates the two byte strings and [H] the rest, if
    any is left. *)
Ltac read_field H Hfield :=
  apply (f_equal rlp.SplitString) in H;
  first
    [ rewrite !SplitString_writeUint in H
    | rewrite !SplitString_writeBytes in H
        by (rewrite ?list_byte_of_string_length; lia) ];
  first [injection H as Hfield H | injection H as Hfield].

(** The fingerprint determines the five values it is computed from:
    the three byte fields, and the two indices as converted to [uint32]. *)
Lemma Fingerprint_fields (e1 e2 : Event) :
  sizes_fit e1 -> sizes_fit e2 ->
  Fingerprint e1 = Fingerprint e2 ->
  TransactionID e1 = TransactionID e2
  /\ uint32 (EventIndex e1) = uint32 (EventIndex e2)
  /\ Type_ e1 = Type_ e2
  /\ uint32 (TransactionIndex e1) = uint32 (TransactionIndex e2)
  /\ Payload e1 = Payload e2.
Proof.
  intros (Hid1 & Hty1 & Hpl1) (Hid2 & Hty2 & Hpl2) H.
  unfold Fingerprint, mustRLPEncode, rlp.encode_struct in H.
  apply puthead_payload_inj in H.
  cbn [flat_map rlp.encode_field] in H.
  read_field H Hid. read_field H Hei. read_field H Hty.
  read_field H Hti. read_field H Hpl.
  pose proof (uint32_bound (EventIndex e1)).
  pose proof (uint32_bound (EventIndex e2)).
  pose proof (uint32_bound (TransactionIndex e1)).
  pose proof (uint32_bound (TransactionIndex e2)).
  repeat split; try assumption.
  - apply uint_bytes_inj; [lia | lia | assumption].
  - now apply list_byte_of_string_inj.
  - apply uint_bytes_inj; [lia | lia | assumption].
Qed.

Lemma wf_Event_sizes_fit (e : Event) : wf_Event e -> sizes_fit e.
Proof. intros [Hid _ _ Hty Hpl]. now repeat split. Qed.

Example Encode_sample :
  Encode sample_event = ([xe2; xa0] ++ repeat x01 32 ++ [x80])%list
  /\ @ID sample_externals sample_event
     = "0xe2a0" ++ hex.EncodeToString (repeat x01 32) ++ "80"
  /\ firstn 3 (Fingerprint sample_event) = [xf8; x3a; xa0]
  /\ skipn 35 (Fingerprint sample_event)
     = ([x80; x93] ++ list_byte_of_string "flow.AccountCreated"
        ++ [x02; x82; x7b; x7d])%list.
Proof. repeat split. Qed.

(** C2.  Two events with equal [TransactionID] and equal [EventIndex] get the
    same identifier from [ID], and the same bytes from [Encode], whatever
    their [Type], [Value], [Payload] and [TransactionIndex] are. *)
Theorem ID_names_the_position `{Externals} (e1 e2 : Event) :
  TransactionID e1 = TransactionID e2 ->
  EventIndex e1 = EventIndex e2 ->
  Encode e1 = Encode e2 /\ ID e1 = ID e2.
Proof.
  intros Hid Hix. unfold ID, Encode. rewrite Hid, Hix. split; reflexivity.
Qed.

Lemma ID_names_the_position_witness :
  let e2 :=
    with_Type
      (with_Value
         (with_Payload (with_TransactionIndex sample_event 9) [x00])
         {| cadence.EventType := "A.B"; cadence.Fields := [] |})
      "A.B" in
  Encode sample_event = Encode e2
  /\ @ID sample_externals sample_event = @ID sample_externals e2.
Proof.
  apply (@ID_names_the_position sample_externals); reflexivity.
Defined.

(** C3, as the code has it.  For a well-formed event, a change of
    [TransactionID], of [Type] or of [Payload] changes the fingerprint, and a
    change of [EventIndex] or of [TransactionIndex] changes it exactly when
    the old and the new index differ as [uint32] values, that is modulo
    [2^32]. *)
Theorem Fingerprint_changes_with_its_fields (e : Event) :
  wf_Event e ->
  (forall id : Identifier,
      List.length id = 32%nat -> id <> TransactionID e ->
      Fingerprint (with_TransactionID e id) <> Fingerprint e)
  /\ (forall i : Z,
        uint32 i <> uint32 (EventIndex e) <->
        Fingerprint (with_EventIndex e i) <> Fingerprint e)
  /\ (forall t : string,
        (Z.of_nat (String.length t) < 2 ^ 63)%Z -> t <> Type_ e ->
        Fingerprint (with_Type e t) <> Fingerprint e)
  /\ (forall i : Z,
        uint32 i <> uint32 (TransactionIndex e) <->
        Fingerprint (with_TransactionIndex e i) <> Fingerprint e)
  /\ (forall p : list byte,
        (Z.of_nat (List.length p) < 2 ^ 63)%Z -> p <> Payload e ->
        Fingerprint (with_Payload e p) <> Fingerprint e).
Proof.
  intros W. apply wf_Event_sizes_fit in W.
  pose proof W as (Hid & Hty & Hpl).
  repeat split.
  - intros id Hlen Hne Heq. apply Hne.
    apply Fingerprint_fields in Heq; [tauto | now repeat split | exact W].
  - intros Hne Heq. apply Hne.
    apply Fingerprint_fields in Heq; [tauto | exact W | exact W].
  - intros Hne Heq. apply Hne. unfold Fingerprint. cbn. now rewrite Heq.
  - intros t Hlen Hne Heq. apply Hne.
    apply Fingerprint_fields in Heq; [tauto | now repeat split | exact W].
  - intros Hne Heq. apply Hne.
    apply Fingerprint_fields in Heq; [tauto | exact W | exact W].
  - intros Hne Heq. apply Hne. unfold Fingerprint. cbn. now rewrite Heq.
  - intros p Hlen Hne Heq. apply Hne.
    apply Fingerprint_fields in Heq; [tauto | now repeat split | exact W].
Qed.

Lemma sample_event_wf : wf_Event sample_event.
Proof. constructor; cbn; unfold int_range; lia. Qed.

Lemma Fingerprint_changes_with_its_fields_witness :
  Fingerprint (with_Type sample_event EventAccountAdded)
  <> Fingerprint sample_event
  /\ Fingerprint (with_EventIndex sample_event 1) <> Fingerprint sample_event.
Proof.
  destruct (Fingerprint_changes_with_its_fields sample_event)
    as (_ & Hindex & Htype & _).
  - constructor; cbn; unfold int_range; lia.
  - split.
    + apply Htype; [cbn; lia | discriminate].
    + apply Hindex. vm_compute. discriminate.
Defined.

(** C3, as stated, fails: an [EventIndex] of [2^32] instead of [0], every
    other field unchanged and both events well formed, leaves the fingerprint
    the same. *)
Lemma Fingerprint_unchanged_by_high_index_bits :
  wf_Event sample_event
  /\ wf_Event (with_EventIndex sample_event 4294967296)
  /\ EventIndex (with_EventIndex sample_event 4294967296)
     <> EventIndex sample_event
  /\ Fingerprint (with_EventIndex sample_event 4294967296)
     = Fingerprint sample_event.
Proof.
  split; [exact sample_event_wf|].
  split; [constructor; cbn; unfold int_range; lia|].
  split; [discriminate | reflexivity].
Qed.

(** ** The events hash *)

Lemma sdkEventToFlow_ignores_Payload `{Externals} (e1 e2 : Event) :
  agree_except_Payload e1 e2 -> sdkEventToFlow e1 = sdkEventToFlow e2.
Proof.
  intros (Hty & Hid & Hti & Hei & Hv). unfold sdkEventToFlow.
  now rewrite Hty, Hid, Hti, Hei, Hv.
Qed.

Lemma sdkEventsToFlow_ignores_Payload `{Externals} (es1 es2 : list Event) :
  Forall2 agree_except_Payload es1 es2 ->
  sdkEventsToFlow es1 = sdkEventsToFlow es2.
Proof.
  induction 1 as [|e1 e2 es1 es2 Hhead _ IH]; [reflexivity|].
  cbn [sdkEventsToFlow].
  now rewrite (sdkEventToFlow_ignores_Payload e1 e2 Hhead), IH.
Qed.

(** C4.  Two event lists of the same length whose events agree, position by
    position, on [Type], [TransactionID], [TransactionIndex], [EventIndex]
    and [Value] give the same result of [CalculateEventsHash], whatever their
    [Payload] fields hold; the payload of a converted event is the JSON
    encoding of the event's [Value]. *)
Theorem CalculateEventsHash_ignores_Payload `{Externals}
  (es1 es2 : list Event) :
  Forall2 agree_except_Payload es1 es2 ->
  CalculateEventsHash es1 = CalculateEventsHash es2
  /\ sdkEventsToFlow es1 = sdkEventsToFlow es2
  /\ forall (e : Event) (converted : flowgo.Event),
       sdkEventToFlow e = Ok converted ->
       jsoncdc_Encode (Value e) = Ok (flowgo.Payload converted).
Proof.
  intros Hagree. unfold CalculateEventsHash.
  rewrite (sdkEventsToFlow_ignores_Payload es1 es2 Hagree).
  repeat split.
  intros e converted. unfold sdkEventToFlow.
  destruct (jsoncdc_Encode (Value e)) as [payload|err]; [|discriminate].
  intros [= <-]. reflexivity.
Qed.

Lemma CalculateEventsHash_ignores_Payload_witness :
  @CalculateEventsHash sample_externals
    [sample_event; with_Payload sample_event [x01; x02]]
  = @CalculateEventsHash sample_externals
      [with_Payload sample_event []; with_Payload sample_event [xff]].
Proof.
  apply (@CalculateEventsHash_ignores_Payload sample_externals).
  repeat constructor.
Defined.

(** C5.  On the empty sequence [CalculateEventsHash] converts no event and
    asks the chain library for the Merkle root of no events; when the
    library returns a root, as section 4.2 says it does, the result is the
    bytes of that root and no error: rendering the root in hexadecimal and
    decoding the text cannot fail. *)
Theorem CalculateEventsHash_empty `{Externals} (root : flowgo.Identifier) :
  EventsMerkleRootHash [] = Ok root ->
  sdkEventsToFlow [] = Ok [] /\ CalculateEventsHash [] = Ok root.
Proof.
  intros Hroot. split; [reflexivity|].
  unfold CalculateEventsHash. cbn [sdkEventsToFlow]. rewrite Hroot.
  unfold flowgo.Identifier_String.
  now rewrite DecodeString_EncodeToString.
Qed.

Lemma CalculateEventsHash_empty_witness :
  @sdkEventsToFlow sample_externals [] = Ok []
  /\ @CalculateEventsHash sample_externals [] = Ok (repeat x00 32).
Proof.
  apply (@CalculateEventsHash_empty sample_externals). reflexivity.
Defined.

(** ** The account-created view *)

(** C9.  On an event whose value has an address in its field zero,
    [Address] returns, without a panic, the address [BytesToAddress] builds
    from the bytes of that field. *)
Theorem AccountCreatedEvent_Address_of_field_zero `{Externals}
  (evt : AccountCreatedEvent) (bytes : list byte) (rest : list cadence.Value) :
  cadence.Fields (Value evt) = cadence.Address bytes :: rest ->
  AccountCreatedEvent_Address evt = Returns (BytesToAddress bytes).
Proof.
  intros Hfields. unfold AccountCreatedEvent_Address. now rewrite Hfields.
Qed.

(** Without an address in field zero the call panics. *)
Lemma AccountCreatedEvent_Address_panics `{Externals}
  (evt : AccountCreatedEvent) :
  (forall bytes rest,
      cadence.Fields (Value evt) <> cadence.Address bytes :: rest) ->
  exists reason : string, AccountCreatedEvent_Address evt = Panics reason.
Proof.
  intros Hnone. unfold AccountCreatedEvent_Address.
  destruct (cadence.Fields (Value evt)) as [|[bytes|s|i|b] rest];
    try (eexists; reflexivity).
  now destruct (Hnone bytes rest).
Qed.

Lemma AccountCreatedEvent_Address_of_field_zero_witness :
  @AccountCreatedEvent_Address sample_externals sample_event
  = Returns (repeat x07 8).
Proof.
  apply (@AccountCreatedEvent_Address_of_field_zero sample_externals
           sample_event (repeat x07 8) []).
  reflexivity.
Defined.

(** ** The handler *)

(** Running a sequence of two programs runs the first, then the second on
    its result; a panic of the first is the panic of the sequence. *)
Lemma run_bind {A B : Type} (net : transport) (p : prog A) (f : A -> prog B) :
  run net (p ≫= f)
  = match run net p with
    | Returns a => run net (f a)
    | Panics reason => Panics reason
    end.
Proof.
  induction p as [a|reason|req k IH]; cbn; [reflexivity|reflexivity|].
  apply IH.
Qed.

Lemma requests_bind {A B : Type} (net : transport) (p : prog A)
  (f : A -> prog B) :
  requests net (p ≫= f)
  = (requests net p
     ++ match run net p with
        | Returns a => requests net (f a)
        | Panics _ => []
        end)%list.
Proof.
  induction p as [a|reason|req k IH]; cbn; [reflexivity|reflexivity|].
  f_equal. apply IH.
Qed.

(** The emulator's base has a scheme and no slashes after it: the parser
    keeps all that follows the scheme as opaque text, with no host. *)
Example emulator_URL_is_opaque :
  mustBuildURL NewDefaultEmulatorHandler "/blocks"
  = Some {| url.Scheme := "http"; url.Opaque := "127.0.0.1:8888/v1/blocks";
            url.User := None; url.Host := EmptyString;
            url.Path := EmptyString; url.RawPath := EmptyString;
            url.ForceQuery := false; url.RawQuery := EmptyString |}
  /\ (url.Host <$> mustBuildURL NewDefaultTestnetHandler "/blocks")
     = Some "rest-testnet.onflow.org"
  /\ (url.Path <$> mustBuildURL NewDefaultTestnetHandler "/blocks")
     = Some "/v1//blocks".
Proof. repeat split. Qed.

(** C7.  The base endpoints of the three preset handlers are the literal
    strings of the source; the emulator's has no slashes after its scheme. *)
Theorem preset_base_endpoints :
  base NewDefaultEmulatorHandler = "http:127.0.0.1:8888/v1"
  /\ base NewDefaultTestnetHandler = "https://rest-testnet.onflow.org/v1/"
  /\ base NewDefaultMainnetHandler = "https://rest-mainnet.onflow.org/v1/".
Proof. repeat split. Qed.

Lemma contains_middle (a sub b : string) : contains sub (a ++ sub ++ b).
Proof. now exists a, b. Qed.

Lemma append_cons (c : ascii) (a b : string) :
  String c a ++ b = String c (a ++ b).
Proof. reflexivity. Qed.

Lemma append_empty_r (a : string) : a ++ EmptyString = a.
Proof.
  induction a as [|c a IH]; [reflexivity|]. now rewrite append_cons, IH.
Qed.

Lemma contains_end (a sub : string) : contains sub (a ++ sub).
Proof. exists a, EmptyString. now rewrite append_empty_r. Qed.

Lemma append_assoc (a b c : string) : (a ++ b) ++ c = a ++ b ++ c.
Proof.
  induction a as [|x a IH]; [reflexivity|]. now rewrite !append_cons, IH.
Qed.

(** The message of a status failure holds the code and the body. *)
Lemma status_message_contains (method target body : string) (code : Z) :
  let msg := method ++ target ++ " failed, status code: " ++ itoa code
             ++ ", response :" ++ body in
  contains (itoa code) msg /\ contains body msg.
Proof.
  cbn zeta. split.
  - rewrite <- (append_assoc target), <- (append_assoc method).
    apply contains_middle.
  - rewrite <- (append_assoc (itoa code)), <- (append_assoc _ (itoa code ++ _)),
      <- (append_assoc target), <- (append_assoc method).
    apply contains_end.
Qed.

Example get_404_oops :
  run (constant_net 404 "oops")
    (@get sample_library string NewDefaultTestnetHandler (Some sample_url)
       (@Pointer string sample_target "before"))
  = Returns
      (Some "HTTP GET /v1/blocks? failed, status code: 404, response :oops",
       "before")
  /\ run (constant_net 200 "after")
       (@get sample_library string NewDefaultTestnetHandler (Some sample_url)
          (@Pointer string sample_target "before"))
     = Returns (None, "after")
  /\ run (constant_net 200 "after")
       (@get sample_library string NewDefaultTestnetHandler (Some sample_url)
          (Plain "before"))
     = Returns (None, "before").
Proof. repeat split. Qed.




Example getBlockByHeight_sample :
  requests (constant_net 200 "[{}]")
    (@getBlockByHeight sample_library NewDefaultTestnetHandler "7")
  = [GET "/v1//blocks?height=7"]
  /\ run (constant_net 200 "[{}]")
       (@getBlockByHeight sample_library NewDefaultTestnetHandler "7")
     = Returns (Err "blocks not found").
Proof. split; vm_compute; reflexivity. Qed.

(** What [getBlockByHeight] does once its URL is built: one GET, and an
    error for each answer of the network.  The caller's list of blocks plays
    no part in the result. *)
Lemma getBlockByHeight_with_URL `{Library}
  (h : Handler) (height : string) (net : transport) (u : url.URL) :
  mustBuildURL h "/blocks" = Some u ->
  let target := URL_String (add_query u "height" height) in
  let failed (cause : error) : result (list Block) :=
    Err (errors_Wrap cause ("get block by height " ++ height ++ " failed")) in
  requests net (getBlockByHeight h height) = [GET target]
  /\ run net (getBlockByHeight h height)
     = Returns
         match net (GET target) with
         | Err err =>
             failed (errors_Wrap err ("HTTP GET " ++ target ++ " failed"))
         | Ok res =>
             match Body res with
             | Err err => failed err
             | Ok body =>
                 if (StatusCode res >=? 400)%Z then
                   failed ("HTTP GET " ++ target ++ " failed, status code: "
                           ++ itoa (StatusCode res) ++ ", response :" ++ body)
                 else
                   match json_Unmarshal_value body with
                   | Some err =>
                       failed (errors_Wrap err "JSON decoding failed")
                   | None => Err "blocks not found"
                   end
             end
         end.
Proof.
  intros Hurl target failed. unfold getBlockByHeight. rewrite Hurl.
  cbn [mbind prog_mbind prog_bind get run requests]. fold target.
  destruct (net (GET target)) as [res|err];
    cbn [run requests prog_bind]; [|now split].
  destruct (Body res) as [body|err]; cbn [run requests prog_bind];
    [|now split].
  destruct (StatusCode res >=? 400)%Z; cbn [run requests prog_bind];
    [now split|].
  unfold Unmarshal.
  destruct (json_Unmarshal_value body) as [err|];
    cbn [run requests prog_bind]; now split.
Qed.

(** C1.  Whatever the network answers, [getBlockByHeight] returns no list of
    blocks: it returns an error, which is the text "blocks not found" or an
    error of [get] wrapped with the operation's message.  The destination is
    handed to [get] by value, so the caller's list stays empty.  (It panics
    only when no request is made, the URL being nil.) *)
Theorem getBlockByHeight_returns_no_blocks `{Library}
  (h : Handler) (height : string) (net : transport) :
  match run net (getBlockByHeight h height) with
  | Returns (Ok blocks) => False
  | Returns (Err err) =>
      err = "blocks not found"
      \/ exists cause : error,
           err = errors_Wrap cause
                   ("get block by height " ++ height ++ " failed")
  | Panics _ =>
      mustBuildURL h "/blocks" = None
      /\ requests net (getBlockByHeight h height) = []
  end.
Proof.
  destruct (mustBuildURL h "/blocks") as [u|] eqn:Hurl.
  - destruct (getBlockByHeight_with_URL h height net u Hurl) as [_ ->].
    destruct (net _) as [res|err]; [|right; eexists; reflexivity].
    destruct (Body res) as [body|err]; [|right; eexists; reflexivity].
    destruct (StatusCode res >=? 400)%Z; [right; eexists; reflexivity|].
    destruct (json_Unmarshal_value body) as [err|];
      [right; eexists; reflexivity|now left].
  - unfold getBlockByHeight. rewrite Hurl. now split.
Qed.

Lemma Values_Add_lookup (v : url.Values) (key value : string) :
  url.Values_Add v key value !! key
  = Some (default [] (v !! key) ++ [value])%list.
Proof. unfold url.Values_Add. apply lookup_insert_eq. Qed.

Lemma Values_Add_lookup_other (v : url.Values) (key value other : string) :
  other <> key ->
  url.Values_Add v key value !! other = v !! other.
Proof. intros Hne. unfold url.Values_Add. now apply lookup_insert_ne. Qed.

(** C8.  On a handler whose URL for "/scripts" builds, and with the JSON
    encoding [body] of the script and its arguments,
    [executeScriptAtBlockHeight] issues one request: a POST of [body], with
    content type application/json, to that URL with [height] added to the
    values of the query key block_height.  [executeScriptAtBlockID] is the
    same call of [executeScriptAt] with the key block_id. *)
Theorem executeScript_issues_one_POST `{Library}
  (h : Handler) (u : url.URL) (value script : string)
  (arguments : list string) (body : string) (net : transport) :
  mustBuildURL h "/scripts" = Some u ->
  json_Marshal {| Script := script; Arguments := arguments |} = Ok body ->
  requests net (executeScriptAtBlockHeight h value script arguments)
  = [script_request u "block_height" value body]
  /\ requests net (executeScriptAtBlockID h value script arguments)
     = [script_request u "block_id" value body]
  /\ executeScriptAtBlockHeight h value script arguments
     = executeScriptAt h [("block_height", value)] script arguments
  /\ executeScriptAtBlockID h value script arguments
     = executeScriptAt h [("block_id", value)] script arguments
  /\ (forall key : string,
        url.RawQuery (add_query u key value)
        = Values_Encode (url.Values_Add (URL_Query u) key value)
        /\ url.Values_Add (URL_Query u) key value !! key
           = Some (default [] (URL_Query u !! key) ++ [value])%list
        /\ forall other : string,
             other <> key ->
             url.Values_Add (URL_Query u) key value !! other
             = URL_Query u !! other).
Proof.
  intros Hurl Hbody.
  assert (Hone : forall key : string,
             requests net (executeScriptAt h [(key, value)] script arguments)
             = [script_request u key value body]).
  { intros key. unfold executeScriptAt. rewrite Hurl, Hbody.
    cbn [fold_left fst snd mbind prog_mbind prog_bind post requests].
    f_equal.
    destruct (net _) as [res|err]; cbn [requests prog_bind]; [|reflexivity].
    destruct (Body res) as [text|err]; cbn [requests prog_bind];
      [|reflexivity].
    destruct (StatusCode res >=? 400)%Z; cbn [requests prog_bind];
      [reflexivity|].
    destruct (Unmarshal text _) as [x [err|]]; reflexivity. }
  split; [apply Hone|]. split; [apply Hone|].
  split; [reflexivity|]. split; [reflexivity|].
  intros key. split; [reflexivity|].
  split; [apply Values_Add_lookup|].
  intros other Hne. now apply Values_Add_lookup_other.
Qed.

Lemma executeScript_issues_one_POST_witness :
  requests (constant_net 200 "7")
    (@executeScriptAtBlockHeight sample_library NewDefaultTestnetHandler
       "12" "pub fun main(): Int { return 7 }" [])
  = [POST "/v1//scripts?block_height=12" "application/json"
       "pub fun main(): Int { return 7 }"].
Proof.
  destruct (@executeScript_issues_one_POST sample_library
              NewDefaultTestnetHandler
              {| url.Scheme := "https"; url.Opaque := EmptyString;
                 url.User := None; url.Host := "rest-testnet.onflow.org";
                 url.Path := "/v1//scripts"; url.RawPath := EmptyString;
                 url.ForceQuery := false; url.RawQuery := EmptyString |}
              "12" "pub fun main(): Int { return 7 }" []
              "pub fun main(): Int { return 7 }" (constant_net 200 "7")
              eq_refl eq_refl) as [Hheight _].
  exact Hheight.
Defined.

(** ** URLs that do not build *)

(** Splitting the query off a text keeps its first byte, or leaves nothing. *)
Lemma split_query_keeps_head (c : ascii) (s : string) :
  fst (fst (url.split_query (String c s))) = EmptyString
  \/ exists s' : string, fst (fst (url.split_query (String c s))) = String c s'.
Proof.
  unfold url.split_query.
  destruct (url.ends_with "?" (String c s) && _).
  - cbn [fst]. destruct s as [|d s]; [now left|right].
    eexists. reflexivity.
  - cbn [url.Cut]. destruct (Ascii.eqb c "?"); [now left|right].
    destruct (url.Cut "?" s) as [before after]. eexists. reflexivity.
Qed.

(** A text with no scheme that does not start with a slash is no request
    URI. *)
Lemma ParseRequestURI_rootless (rawURL : string) :
  url.getScheme rawURL = Ok (EmptyString, rawURL) ->
  url.HasPrefix rawURL "/" = false ->
  rawURL <> "*" ->
  exists err : error, url.ParseRequestURI rawURL = Err err.
Proof.
  intros Hscheme Hprefix Hstar. unfold url.ParseRequestURI, url.parse.
  destruct (url.stringContainsCTLByte rawURL); [eexists; reflexivity|].
  destruct (String.eqb rawURL EmptyString); [eexists; reflexivity|].
  destruct (String.eqb_spec rawURL "*") as [|_]; [contradiction|].
  rewrite Hscheme. cbn [mbind result_bind url.ToLower].
  assert (Hrest : url.HasPrefix (fst (fst (url.split_query rawURL))) "/"
                  = false).
  { destruct rawURL as [|c s]; [reflexivity|].
    destruct (split_query_keeps_head c s) as [-> | [s' ->]]; [reflexivity|].
    unfold url.HasPrefix in *. cbn [String.prefix] in *.
    destruct (ascii_dec "/" c); [destruct s; discriminate Hprefix|reflexivity]. }
  destruct (url.split_query rawURL) as [[rest rawQuery] forceQuery].
  cbn [fst] in Hrest. rewrite Hrest. cbn. eexists. reflexivity.
Qed.

(** [getScheme] finds no scheme in a run of scheme characters that ends at a
    slash. *)
Lemma getScheme_loop_no_colon (rawURL name tail : string) (i : nat) :
  forallb (fun c => url.is_letter c || url.is_digit c || url.one_of "+-." c)
    (list_ascii_of_string name) = true ->
  url.getScheme_loop rawURL i (name ++ String "/" tail)
  = Ok (EmptyString, rawURL).
Proof.
  revert i. induction name as [|c name IH]; intros i Hname.
  - reflexivity.
  - cbn [list_ascii_of_string forallb] in Hname.
    apply andb_true_iff in Hname as [Hc Hname].
    rewrite append_cons. cbn [url.getScheme_loop].
    destruct (url.is_letter c); [now apply IH|].
    cbn [orb] in Hc. rewrite Hc.
    destruct (i =? 0)%nat; [reflexivity|now apply IH].
Qed.

(** Over a bare name no path that starts with a slash builds. *)
Lemma bare_name_builds_nothing (h : Handler) (p : string) :
  bare_name (base h) = true -> mustBuildURL h (String "/" p) = None.
Proof.
  intros Hbare. unfold bare_name in Hbare.
  apply andb_true_iff in Hbare as [Hnonempty Hname].
  unfold mustBuildURL.
  destruct (ParseRequestURI_rootless (base h ++ String "/" p))
    as [err ->]; [| | |reflexivity].
  - unfold url.getScheme. now apply getScheme_loop_no_colon.
  - destruct (base h) as [|c name]; [discriminate Hnonempty|].
    rewrite append_cons. unfold url.HasPrefix. cbn [String.prefix].
    destruct (ascii_dec "/" c) as [<-|]; [|reflexivity].
    cbn in Hname. discriminate Hname.
  - destruct (base h) as [|c name]; [discriminate Hnonempty|].
    rewrite append_cons. intros [= -> Htail].
    destruct name; discriminate Htail.
Qed.

(** C10, as the code has it.  [NewHandler] accepts every base without an
    error.  Over a base for which the parser rejects the base followed by the
    path of an operation, such as a bare host name ("localhost", "foo"),
    [mustBuildURL] returns nil and every operation panics on the nil URL
    before it issues a request. *)
Theorem unparsable_base_panics_every_operation `{Library} (baseUrl : string) :
  bare_name baseUrl = true ->
  exists h : Handler,
    NewHandler baseUrl = Ok h
    /\ (forall path, mustBuildURL h (String "/" path) = None)
    /\ (forall id, getBlockByID h id = Panic nil_dereference)
    /\ (forall height, getBlockByHeight h height = Panic nil_dereference)
    /\ (forall address height,
          getAccount h address height = Panic nil_dereference)
    /\ (forall id, getCollection h id = Panic nil_dereference)
    /\ (forall height script arguments,
          executeScriptAtBlockHeight h height script arguments
          = Panic nil_dereference)
    /\ (forall id script arguments,
          executeScriptAtBlockID h id script arguments
          = Panic nil_dereference)
    /\ (forall id includeResult,
          getTransaction h id includeResult = Panic nil_dereference)
    /\ (forall transaction,
          sendTransaction h transaction = Panic nil_dereference).
Proof.
  intros Hbare. eexists. split; [reflexivity|].
  set (h := {| client := DefaultClient; base := baseUrl |}).
  assert (Hnil : forall path, mustBuildURL h (String "/" path) = None)
    by (intros path; now apply bare_name_builds_nothing).
  split; [exact Hnil|].
  split.
  { intros id. unfold getBlockByID.
    change ("/blocks/" ++ id) with (String "/" ("blocks/" ++ id)).
    now rewrite Hnil. }
  split.
  { intros height. unfold getBlockByHeight. now rewrite (Hnil "blocks"). }
  split.
  { intros address height. unfold getAccount.
    change ("/accounts/" ++ address) with (String "/" ("accounts/" ++ address)).
    now rewrite Hnil. }
  split.
  { intros id. unfold getCollection.
    change ("/collections/" ++ id) with (String "/" ("collections/" ++ id)).
    now rewrite Hnil. }
  split.
  { intros height script arguments.
    unfold executeScriptAtBlockHeight, executeScriptAt.
    now rewrite (Hnil "scripts"). }
  split.
  { intros id script arguments.
    unfold executeScriptAtBlockID, executeScriptAt.
    now rewrite (Hnil "scripts"). }
  split.
  { intros id includeResult. unfold getTransaction.
    change ("/transactions/" ++ id) with (String "/" ("transactions/" ++ id)).
    rewrite Hnil. now destruct includeResult. }
  intros transaction. unfold sendTransaction.
  now rewrite (Hnil "transactions").
Qed.

Lemma unparsable_base_panics_every_operation_witness :
  exists h : Handler,
    NewHandler "localhost" = Ok h
    /\ (forall path, mustBuildURL h (String "/" path) = None)
    /\ (forall id, @getBlockByID sample_library h id = Panic nil_dereference)
    /\ (forall height,
          @getBlockByHeight sample_library h height = Panic nil_dereference)
    /\ (forall address height,
          @getAccount sample_library h address height = Panic nil_dereference)
    /\ (forall id, @getCollection sample_library h id = Panic nil_dereference)
    /\ (forall height script arguments,
          @executeScriptAtBlockHeight sample_library h height script arguments
          = Panic nil_dereference)
    /\ (forall id script arguments,
          @executeScriptAtBlockID sample_library h id script arguments
          = Panic nil_dereference)
    /\ (forall id includeResult,
          @getTransaction sample_library h id includeResult
          = Panic nil_dereference)
    /\ (forall transaction,
          @sendTransaction sample_library h transaction
          = Panic nil_dereference).
Proof.
  apply (@unparsable_base_panics_every_operation sample_library "localhost").
  reflexivity.
Defined.

(** C10, as stated, fails at its own example: the parser rejects the empty
    string, yet over the empty base the URL of an operation is the
    operation's absolute path, which the parser accepts; [mustBuildURL]
    returns a URL and not nil. *)
Lemma empty_base_builds_URLs :
  url.ParseRequestURI EmptyString
  = Err (url.Error "parse" EmptyString "empty url")
  /\ NewHandler EmptyString = Ok empty_handler
  /\ mustBuildURL empty_handler "/blocks" = Some (path_only "/blocks")
  /\ mustBuildURL empty_handler "/scripts" = Some (path_only "/scripts")
  /\ mustBuildURL empty_handler "/transactions"
     = Some (path_only "/transactions").
Proof. repeat split. Qed.

(** Over the empty base [getBlockByHeight] issues its request and returns an
    error, whatever the network answers. *)
Lemma empty_base_getBlockByHeight_returns `{Library}
  (height : string) (net : transport) :
  exists (target : string) (err : error),
    requests net (getBlockByHeight empty_handler height) = [GET target]
    /\ run net (getBlockByHeight empty_handler height) = Returns (Err err).
Proof.
  destruct (getBlockByHeight_with_URL empty_handler height net
              (path_only "/blocks") eq_refl) as [Hreq ->].
  rewrite Hreq. eexists. 
  destruct (net _) as [res|err]; [|eexists; split; reflexivity].
  destruct (Body res) as [body|err]; [|eexists; split; reflexivity].
  destruct (StatusCode res >=? 400)%Z; [eexists; split; reflexivity|].
  destruct (json_Unmarshal_value body) as [err|]; eexists; split; reflexivity.
Qed.

(** * Further properties of the event model *)

(** ** The conversion to chain events *)

(** X1.  [sdkEventsToFlow] returns a list exactly when every event converts,
    and the list then holds the conversions of the events, one for one and
    in the order of the input. *)
Theorem sdkEventsToFlow_converts_in_order `{Externals}
  (events : list Event) (flowEvents : list flowgo.Event) :
  sdkEventsToFlow events = Ok flowEvents
  <-> Forall2 (fun event flowEvent => sdkEventToFlow event = Ok flowEvent)
        events flowEvents.
Proof.
  split.
  - revert flowEvents.
    induction events as [|event events IH]; intros flowEvents Hok.
    + injection Hok as <-. constructor.
    + cbn [sdkEventsToFlow] in Hok.
      destruct (sdkEventToFlow event) as [flowEvent|err] eqn:Hhead;
        [|discriminate].
      destruct (sdkEventsToFlow events) as [rest|err]; [|discriminate].
      injection Hok as <-. constructor; [exact Hhead|now apply IH].
  - induction 1 as [|event flowEvent events flowEvents Hhead _ IH];
      [reflexivity|].
    cbn [sdkEventsToFlow]. now rewrite Hhead, IH.
Qed.

(** X2.  [sdkEventsToFlow] fails exactly when the value of some event cannot
    be encoded, and its error is the encoder's error for the first such
    event: the events before it convert, the events after it are not
    looked at. *)
Theorem sdkEventsToFlow_first_error `{Externals}
  (events : list Event) (err : error) :
  sdkEventsToFlow events = Err err
  <-> exists (before : list Event) (event : Event) (after : list Event),
        events = (before ++ event :: after)%list
        /\ Forall (fun e => exists converted, sdkEventToFlow e = Ok converted)
             before
        /\ jsoncdc_Encode (Value event) = Err err.
Proof.
  split.
  - induction events as [|event events IH]; [discriminate|].
    cbn [sdkEventsToFlow]. intros Herr.
    destruct (sdkEventToFlow event) as [flowEvent|err'] eqn:Hhead.
    + destruct (sdkEventsToFlow events) as [rest|err'']; [discriminate|].
      injection Herr as ->.
      destruct (IH eq_refl) as (before & e & after & -> & Hbefore & He).
      exists (event :: before), e, after.
      split; [reflexivity|]. split; [|exact He].
      constructor; [now exists flowEvent|exact Hbefore].
    + injection Herr as ->. exists [], event, events.
      split; [reflexivity|]. split; [constructor|].
      unfold sdkEventToFlow in Hhead.
      destruct (jsoncdc_Encode (Value event)); [discriminate|].
      now injection Hhead as ->.
  - intros (before & event & after & -> & Hbefore & He).
    induction Hbefore as [|e before [converted Hconv] _ IH].
    + cbn [app sdkEventsToFlow]. unfold sdkEventToFlow. now rewrite He.
    + cbn [app sdkEventsToFlow]. now rewrite Hconv, IH.
Qed.

Lemma uint32_fixes (x : Z) :
  Z.of_N (uint32 x) = x <-> (0 <= x < 2 ^ 32)%Z.
Proof.
  unfold uint32.
  pose proof (Z.mod_pos_bound x (2 ^ 32) ltac:(lia)) as Hb.
  rewrite Z2N.id by lia. split.
  - intros <-. exact Hb.
  - intros Hx. now apply Z.mod_small.
Qed.

(** X3.  [sdkEventToFlow] fails only with the encoder's error.  A converted
    event has the type and transaction ID of the event and the encoder's
    payload; each of its indices is below [2^32], and is the event's index
    exactly when that one lies between [0] and [2^32 - 1]. *)
Theorem sdkEventToFlow_fields `{Externals} (event : Event) :
  (forall err, sdkEventToFlow event = Err err
               <-> jsoncdc_Encode (Value event) = Err err)
  /\ forall converted,
       sdkEventToFlow event = Ok converted ->
       flowgo.Type_ converted = Type_ event
       /\ flowgo.TransactionID converted = TransactionID event
       /\ jsoncdc_Encode (Value event) = Ok (flowgo.Payload converted)
       /\ (flowgo.TransactionIndex converted < 2 ^ 32)%N
       /\ (flowgo.EventIndex converted < 2 ^ 32)%N
       /\ (Z.of_N (flowgo.TransactionIndex converted) = TransactionIndex event
           <-> (0 <= TransactionIndex event < 2 ^ 32)%Z)
       /\ (Z.of_N (flowgo.EventIndex converted) = EventIndex event
           <-> (0 <= EventIndex event < 2 ^ 32)%Z).
Proof.
  unfold sdkEventToFlow.
  destruct (jsoncdc_Encode (Value event)) as [payload|err'].
  - split; [intros err; split; discriminate|].
    intros converted [= <-]. cbn.
    split; [reflexivity|]. split; [reflexivity|]. split; [reflexivity|].
    split; [apply uint32_bound|]. split; [apply uint32_bound|].
    split; apply uint32_fixes.
  - split; [intros err; split; intros [= ->]; reflexivity|].
    discriminate.
Qed.

(** X4.  [CalculateEventsHash] is the conversion followed by the Merkle root
    of the chain library: the bytes it returns are the root, and an error it
    returns is the conversion's or the library's.  The error branch after
    [hex.DecodeString] is never taken. *)
Theorem CalculateEventsHash_is_the_root `{Externals} (es : list Event) :
  CalculateEventsHash es = (sdkEventsToFlow es ≫= EventsMerkleRootHash)
  /\ forall err,
       CalculateEventsHash es = Err err ->
       sdkEventsToFlow es = Err err
       \/ exists events,
            sdkEventsToFlow es = Ok events
            /\ EventsMerkleRootHash events = Err err.
Proof.
  assert (Heq : CalculateEventsHash es
                = (sdkEventsToFlow es ≫= EventsMerkleRootHash)).
  { unfold CalculateEventsHash.
    destruct (sdkEventsToFlow es) as [events|err]; [|reflexivity].
    cbn [mbind result_bind].
    destruct (EventsMerkleRootHash events) as [id|err]; [|reflexivity].
    unfold flowgo.Identifier_String.
    now rewrite DecodeString_EncodeToString. }
  split; [exact Heq|].
  intros err. rewrite Heq.
  destruct (sdkEventsToFlow es) as [events|err']; cbn [mbind result_bind].
  - intros Herr. right. now exists events.
  - intros [= ->]. now left.
Qed.

(** ** The two encodings of an event *)

Lemma uint64_bound (x : Z) : (uint64 x < 2 ^ 64)%N.
Proof.
  unfold uint64. pose proof (Z.mod_pos_bound x (2 ^ 64) ltac:(lia)). lia.
Qed.

(** On the values of an [int], [uint(x)] loses nothing. *)
Lemma uint64_inj (x y : Z) :
  int_range x -> int_range y -> uint64 x = uint64 y -> x = y.
Proof.
  unfold int_range, uint64. intros Hx Hy Heq.
  pose proof (Z.mod_pos_bound x (2 ^ 64) ltac:(lia)).
  pose proof (Z.mod_pos_bound y (2 ^ 64) ltac:(lia)).
  apply Z2N.inj in Heq; [|lia|lia].
  rewrite (Z.mod_eq x), (Z.mod_eq y) in Heq by lia.
  assert (x / 2 ^ 64 = 0 \/ x / 2 ^ 64 = -1)%Z
    by (pose proof (Z.mul_div_le x (2 ^ 64) ltac:(lia));
        pose proof (Z.mod_eq x (2 ^ 64) ltac:(lia)); lia).
  assert (y / 2 ^ 64 = 0 \/ y / 2 ^ 64 = -1)%Z
    by (pose proof (Z.mul_div_le y (2 ^ 64) ltac:(lia));
        pose proof (Z.mod_eq y (2 ^ 64) ltac:(lia)); lia).
  lia.
Qed.

Lemma writeBytes_nonempty (b : list byte) :
  (1 <= List.length (rlp.writeBytes b))%nat.
Proof.
  unfold rlp.writeBytes, rlp.encodeStringHeader, rlp.puthead.
  destruct b as [|x [|y b]];
    repeat match goal with
           | |- context [if ?c then _ else _] => destruct c
           end; cbn; lia.
Qed.

(** X5.  On well-formed events [Encode] is one to one in the position: two
    events get the same bytes exactly when they have the same transaction ID
    and the same event index. *)
Theorem Encode_determines_the_position (e1 e2 : Event) :
  wf_Event e1 -> wf_Event e2 ->
  Encode e1 = Encode e2
  <-> TransactionID e1 = TransactionID e2 /\ EventIndex e1 = EventIndex e2.
Proof.
  intros [Hid1 _ Hei1 _ _] [Hid2 _ Hei2 _ _]. split.
  - intros H. unfold Encode, mustRLPEncode, rlp.encode_struct in H.
    apply puthead_payload_inj in H.
    cbn [flat_map rlp.encode_field] in H.
    read_field H Hid. read_field H Hei.
    split; [exact Hid|].
    apply uint64_inj; [assumption | assumption |].
    apply uint_bytes_inj; [apply uint64_bound | apply uint64_bound | exact Hei].
  - intros [Hid Hei]. unfold Encode. now rewrite Hid, Hei.
Qed.

Lemma Encode_determines_the_position_witness :
  Encode sample_event = Encode (with_EventIndex sample_event (-1))
  <-> TransactionID sample_event
      = TransactionID (with_EventIndex sample_event (-1))
      /\ EventIndex sample_event
         = EventIndex (with_EventIndex sample_event (-1)).
Proof.
  apply Encode_determines_the_position;
    constructor; cbn; unfold int_range; lia.
Defined.

(** X6.  The bytes of [Encode] are never the bytes of a [Fingerprint]: the
    first is a list of two fields and the second a list of five, and the
    encoding tells them apart. *)
Theorem Encode_is_no_Fingerprint (e1 e2 : Event) :
  List.length (TransactionID e1) = 32%nat ->
  sizes_fit e2 ->
  Encode e1 <> Fingerprint e2.
Proof.
  intros Hid1 (Hid2 & Hty2 & Hpl2) H.
  unfold Encode, Fingerprint, mustRLPEncode, rlp.encode_struct in H.
  apply puthead_payload_inj in H.
  cbn [flat_map rlp.encode_field] in H.
  read_field H Hid. read_field H Hei.
  apply (f_equal (@List.length byte)) in H.
  rewrite !length_app in H. cbn [List.length] in H.
  pose proof (writeBytes_nonempty (list_byte_of_string (Type_ e2))). lia.
Qed.

Lemma Encode_is_no_Fingerprint_witness :
  Encode sample_event <> Fingerprint sample_event.
Proof.
  apply Encode_is_no_Fingerprint; [reflexivity|].
  repeat split; cbn; lia.
Defined.

(** ** The account-created view, in full *)

(** X7.  [Address] returns exactly when field zero of the event's value is
    an address, and then returns [BytesToAddress] of its bytes; on an empty
    field list and on any other first field it panics. *)
Theorem AccountCreatedEvent_Address_returns_iff `{Externals}
  (evt : AccountCreatedEvent) :
  (forall address,
      AccountCreatedEvent_Address evt = Returns address
      <-> exists bytes rest,
            cadence.Fields (Value evt) = cadence.Address bytes :: rest
            /\ address = BytesToAddress bytes)
  /\ ((exists reason, AccountCreatedEvent_Address evt = Panics reason)
      <-> forall bytes rest,
            cadence.Fields (Value evt) <> cadence.Address bytes :: rest).
Proof.
  unfold AccountCreatedEvent_Address.
  destruct (cadence.Fields (Value evt)) as [|[bytes|s|i|b] rest].
  all: split; [intros address; split|split].
  all: try discriminate.
  all: try (intros (bytes' & rest' & Hf & _); discriminate Hf).
  all: try (intros _ bytes' rest'; discriminate).
  all: try (intros _; eexists; reflexivity).
  - intros [= <-]. now exists bytes, rest.
  - intros (bytes' & rest' & [= <- <-] & ->). reflexivity.
  - intros [reason Hp]. discriminate Hp.
  - intros Hnone. now destruct (Hnone bytes rest).
Qed.

(** * Further properties of the handler *)

(** ** The transport primitives *)

(** Case analysis on the answer of the network to the request in the goal:
    no response, no body, a failure status, or a body to decode. *)
Ltac answer_cases net :=
  let res := fresh "res" in
  let err := fresh "err" in
  let body := fresh "body" in
  let Hstatus := fresh "Hstatus" in
  let Hanswer := fresh "Hanswer" in
  let Hbody := fresh "Hbody" in
  destruct (net _) as [res|err] eqn:Hanswer;
  [ destruct (Body res) as [body|err] eqn:Hbody;
    [ destruct (Z.geb_spec (StatusCode res) 400) as [Hstatus|Hstatus] | ]
  | ].

Lemma requests_get `{Library} {A : Type} (h : Handler) (u : option url.URL)
  (model : iface A) (net : transport) :
  requests net (get h u model)
  = match u with
    | Some u => [GET (URL_String u)]
    | None => []
    end.
Proof.
  destruct u as [u|]; [|reflexivity]. cbn [get requests]. f_equal.
  answer_cases net; try reflexivity.
  destruct (Unmarshal body model) as [x [e|]]; reflexivity.
Qed.

Lemma requests_post `{Library} {A : Type} (h : Handler) (u : option url.URL)
  (sent : string) (model : iface A) (net : transport) :
  requests net (post h u sent model)
  = match u with
    | Some u => [POST (URL_String u) "application/json" sent]
    | None => []
    end.
Proof.
  destruct u as [u|]; [|reflexivity]. cbn [post requests]. f_equal.
  answer_cases net; try reflexivity.
  destruct (Unmarshal body model) as [x [e|]]; reflexivity.
Qed.

Lemma get_returns_nil_iff `{Library} {A : Type} (h : Handler) (u : url.URL)
  (model : iface A) (net : transport) (x : A) :
  run net (get h (Some u) model) = Returns (None, x)
  <-> exists res body,
        net (GET (URL_String u)) = Ok res /\ Body res = Ok body
        /\ (StatusCode res < 400)%Z
        /\ match model with
           | @Pointer _ T pointee =>
               @json_Unmarshal A T body pointee = (x, None)
           | Plain v => json_Unmarshal_value body = None /\ x = v
           end.
Proof.
  cbn [get run]. split.
  - answer_cases net; try discriminate.
    destruct (Unmarshal body model) as [x' [e|]] eqn:Hdec; [discriminate|].
    intros [= <-]. exists res, body.
    split; [reflexivity|]. split; [assumption|]. split; [lia|].
    destruct model as [T pointee|v]; cbn [Unmarshal] in Hdec;
      [exact Hdec|].
    injection Hdec as <- Hvalue. now split.
  - intros (res & body & -> & -> & Hstatus & Hdec).
    destruct (Z.geb_spec (StatusCode res) 400); [lia|].
    destruct model as [T pointee|v]; cbn [Unmarshal].
    + now rewrite Hdec.
    + destruct Hdec as [-> ->]. reflexivity.
Qed.

Lemma post_returns_nil_iff `{Library} {A : Type} (h : Handler) (u : url.URL)
  (sent : string) (model : iface A) (net : transport) (x : A) :
  run net (post h (Some u) sent model) = Returns (None, x)
  <-> exists res body,
        net (POST (URL_String u) "application/json" sent) = Ok res
        /\ Body res = Ok body
        /\ (StatusCode res < 400)%Z
        /\ match model with
           | @Pointer _ T pointee =>
               @json_Unmarshal A T body pointee = (x, None)
           | Plain v => json_Unmarshal_value body = None /\ x = v
           end.
Proof.
  cbn [post run]. split.
  - answer_cases net; try discriminate.
    destruct (Unmarshal body model) as [x' [e|]] eqn:Hdec; [discriminate|].
    intros [= <-]. exists res, body.
    split; [reflexivity|]. split; [assumption|]. split; [lia|].
    destruct model as [T pointee|v]; cbn [Unmarshal] in Hdec;
      [exact Hdec|].
    injection Hdec as <- Hvalue. now split.
  - intros (res & body & -> & -> & Hstatus & Hdec).
    destruct (Z.geb_spec (StatusCode res) 400); [lia|].
    destruct model as [T pointee|v]; cbn [Unmarshal].
    + now rewrite Hdec.
    + destruct Hdec as [-> ->]. reflexivity.
Qed.

(** X8.  [get] and [post] return no error exactly when the client returned a
    response, its body was read, its status is below 400 and
    [json.Unmarshal] of the body gave no error.  Through a pointer the
    value beside the nil error is the one the decoder of the library left
    in the caller's variable; a destination passed by value is decoded into
    the parameter only, and the caller's variable keeps its old value. *)
Theorem get_post_return_nil_iff `{Library} {A : Type} (h : Handler)
  (u : url.URL) (sent : string) (model : iface A) (net : transport) (x : A) :
  (run net (get h (Some u) model) = Returns (None, x)
   <-> exists res body,
         net (GET (URL_String u)) = Ok res /\ Body res = Ok body
         /\ (StatusCode res < 400)%Z
         /\ match model with
            | @Pointer _ T pointee =>
                @json_Unmarshal A T body pointee = (x, None)
            | Plain v => json_Unmarshal_value body = None /\ x = v
            end)
  /\ (run net (post h (Some u) sent model) = Returns (None, x)
      <-> exists res body,
            net (POST (URL_String u) "application/json" sent) = Ok res
            /\ Body res = Ok body
            /\ (StatusCode res < 400)%Z
            /\ match model with
               | @Pointer _ T pointee =>
                   @json_Unmarshal A T body pointee = (x, None)
               | Plain v => json_Unmarshal_value body = None /\ x = v
               end).
Proof. split; [apply get_returns_nil_iff|apply post_returns_nil_iff]. Qed.

(** X9.  On a URL that is not nil [get] and [post] do not panic, and they
    leave the caller's variable as it was unless the destination is a
    pointer and a response with a status below 400 and a readable body
    arrived: no failure of the transport, of the read or of the status
    writes to it, and a destination passed by value is never written. *)
Theorem get_post_write_only_after_success `{Library} {A : Type}
  (h : Handler) (u : url.URL) (sent : string) (model : iface A)
  (net : transport) :
  (exists err x,
      run net (get h (Some u) model) = Returns (err, x)
      /\ (x <> referent model ->
          (exists T pointee, model = @Pointer A T pointee)
          /\ exists res body,
               net (GET (URL_String u)) = Ok res /\ Body res = Ok body
               /\ (StatusCode res < 400)%Z))
  /\ (exists err x,
         run net (post h (Some u) sent model) = Returns (err, x)
         /\ (x <> referent model ->
             (exists T pointee, model = @Pointer A T pointee)
             /\ exists res body,
                  net (POST (URL_String u) "application/json" sent) = Ok res
                  /\ Body res = Ok body /\ (StatusCode res < 400)%Z)).
Proof.
  split; cbn [get post run]; answer_cases net;
    try (do 2 eexists; split; [reflexivity|]; intros Hne; now destruct Hne).
  all: destruct (Unmarshal body model) as [x e] eqn:Hdec.
  all: exists (option_map (fun e => errors_Wrap e "JSON decoding failed") e), x.
  all: split; [destruct e; reflexivity|].
  all: intros Hne; destruct model as [T pointee|v];
    [|cbn in Hdec; injection Hdec as <- _; now destruct Hne].
  all: split; [now exists T, pointee|exists res, body; repeat split; auto; lia].
Qed.

(** ** The read operations *)

(** A read through a pointer to a zero value, as [getBlockByID],
    [getAccount], [getCollection] and [getTransaction] do it: it returns a
    value exactly when [get] returned no error. *)
Lemma fetch_returns_iff `{Library} {A : Type} {T : JSONTarget A}
  (h : Handler) (u : option url.URL) (zero : A) (wrap : error -> error)
  (net : transport) (x : A) :
  run net ('(err, v) ← get h u (Pointer zero);
           match err with
           | Some err => Ret (Err (wrap err))
           | None => Ret (Ok v)
           end) = Returns (Ok x)
  <-> exists u' res body,
        u = Some u' /\ net (GET (URL_String u')) = Ok res
        /\ Body res = Ok body /\ (StatusCode res < 400)%Z
        /\ json_Unmarshal body zero = (x, None).
Proof.
  rewrite run_bind. split.
  - destruct u as [u|]; [|discriminate].
    destruct (run net (get h (Some u) (Pointer zero))) as [[[e|] v]|reason]
      eqn:Hrun; try discriminate.
    intros [= ->]. apply get_returns_nil_iff in Hrun
      as (res & body & Hnet & Hbody & Hstatus & Hdec).
    now exists u, res, body.
  - intros (u' & res & body & -> & Hnet & Hbody & Hstatus & Hdec).
    assert (Hrun : run net (get h (Some u') (Pointer zero))
                   = Returns (None, x)).
    { apply get_returns_nil_iff. now exists res, body. }
    now rewrite Hrun.
Qed.

(** X10.  [getBlockByID], [getAccount], [getCollection] and
    [getTransaction] return a value exactly when the URL was built, the
    client answered the GET to it with a status below 400 and a readable
    body, and the body decoded without an error; the value is the zero
    value of the model after decoding the body into it.  [getAccount] asks
    with the height added to the query, [getTransaction] with
    [expand=result] added when [includeResult] is set, and with the URL as
    built otherwise. *)
Theorem read_operations_return_the_decoded_body `{Library} (h : Handler)
  (id address height : string) (includeResult : bool) (net : transport) :
  (forall block : Block,
      run net (getBlockByID h id) = Returns (Ok block)
      <-> exists u res body,
            mustBuildURL h ("/blocks/" ++ id) = Some u
            /\ net (GET (URL_String u)) = Ok res
            /\ Body res = Ok body /\ (StatusCode res < 400)%Z
            /\ json_Unmarshal body Block_zero = (block, None))
  /\ (forall account : Account,
         run net (getAccount h address height) = Returns (Ok account)
         <-> exists u res body,
               mustBuildURL h ("/accounts/" ++ address) = Some u
               /\ net (GET (URL_String (add_query u "height" height))) = Ok res
               /\ Body res = Ok body /\ (StatusCode res < 400)%Z
               /\ json_Unmarshal body Account_zero = (account, None))
  /\ (forall collection : Collection,
         run net (getCollection h id) = Returns (Ok collection)
         <-> exists u res body,
               mustBuildURL h ("/collections/" ++ id) = Some u
               /\ net (GET (URL_String u)) = Ok res
               /\ Body res = Ok body /\ (StatusCode res < 400)%Z
               /\ json_Unmarshal body Collection_zero = (collection, None))
  /\ (forall transaction : Transaction,
         run net (getTransaction h id includeResult)
         = Returns (Ok transaction)
         <-> exists u res body,
               mustBuildURL h ("/transactions/" ++ id) = Some u
               /\ net (GET (URL_String
                              (if includeResult
                               then add_query u "expand" "result"
                               else u))) = Ok res
               /\ Body res = Ok body /\ (StatusCode res < 400)%Z
               /\ json_Unmarshal body Transaction_zero = (transaction, None)).
Proof.
  split; [|split; [|split]].
  - intros block. unfold getBlockByID. apply fetch_returns_iff.
  - intros account. unfold getAccount.
    destruct (mustBuildURL h ("/accounts/" ++ address)) as [u|].
    + cbn zeta.
      rewrite (fetch_returns_iff h (Some (add_query u "height" height))).
      split.
      * intros (u' & res & body & [= <-] & Hrest). now exists u, res, body.
      * intros (u' & res & body & [= <-] & Hrest).
        now exists (add_query u "height" height), res, body.
    + split; [discriminate|]. now intros (u & res & body & Hnone & _).
  - intros collection. unfold getCollection.
    apply (fetch_returns_iff h _ _ (fun err => err)).
  - intros transaction. unfold getTransaction. cbn zeta.
    destruct includeResult.
    + destruct (mustBuildURL h ("/transactions/" ++ id)) as [u|].
      * rewrite (fetch_returns_iff h (Some (add_query u "expand" "result"))).
        split.
        -- intros (u' & res & body & [= <-] & Hrest). now exists u, res, body.
        -- intros (u' & res & body & [= <-] & Hrest).
           now exists (add_query u "expand" "result"), res, body.
      * split; [discriminate|]. now intros (u & res & body & Hnone & _).
    + apply fetch_returns_iff.
Qed.

(** X11.  Each read operation issues exactly one GET when its URL is built
    and no request when it is not, [getBlockByHeight] and [getAccount] with
    the height added to the query; [sendTransaction] issues one POST whose
    body is the caller's bytes unchanged, with content type
    application/json. *)
Theorem operations_issue_one_request `{Library} (h : Handler)
  (id address height transaction : string) (includeResult : bool)
  (net : transport) :
  requests net (getBlockByID h id)
  = match mustBuildURL h ("/blocks/" ++ id) with
    | Some u => [GET (URL_String u)]
    | None => []
    end
  /\ requests net (getBlockByHeight h height)
     = match mustBuildURL h "/blocks" with
       | Some u => [GET (URL_String (add_query u "height" height))]
       | None => []
       end
  /\ requests net (getAccount h address height)
     = match mustBuildURL h ("/accounts/" ++ address) with
       | Some u => [GET (URL_String (add_query u "height" height))]
       | None => []
       end
  /\ requests net (getCollection h id)
     = match mustBuildURL h ("/collections/" ++ id) with
       | Some u => [GET (URL_String u)]
       | None => []
       end
  /\ requests net (getTransaction h id includeResult)
     = match mustBuildURL h ("/transactions/" ++ id) with
       | Some u => [GET (URL_String (if includeResult
                                     then add_query u "expand" "result"
                                     else u))]
       | None => []
       end
  /\ requests net (sendTransaction h transaction)
     = match mustBuildURL h "/transactions" with
       | Some u => [POST (URL_String u) "application/json" transaction]
       | None => []
       end.
Proof.
  assert (Hfetch : forall (A : Type) (T : JSONTarget A) (u : option url.URL)
                     (zero : A) (wrap : error -> error),
             requests net ('(err, v) ← get h u (Pointer zero);
                           match err with
                           | Some err => Ret (Err (wrap err))
                           | None => Ret (Ok v)
                           end)
             = match u with
               | Some u => [GET (URL_String u)]
               | None => []
               end).
  { intros A T u zero wrap. rewrite requests_bind, requests_get.
    destruct u as [u|]; [|reflexivity].
    destruct (run net (get h (Some u) (Pointer zero))) as [[[e|] v]|reason];
      reflexivity. }
  split; [|split; [|split; [|split; [|split]]]].
  - unfold getBlockByID. apply Hfetch.
  - unfold getBlockByHeight.
    destruct (mustBuildURL h "/blocks") as [u|]; [|reflexivity].
    cbn zeta. rewrite requests_bind, requests_get.
    destruct (run net (get h _ (Plain (@nil Block)))) as [[[e|] v]|reason];
      try reflexivity.
    now destruct (List.length v =? 0)%nat.
  - unfold getAccount.
    destruct (mustBuildURL h ("/accounts/" ++ address)) as [u|];
      [|reflexivity].
    cbn zeta. apply (Hfetch _ _ (Some _)).
  - unfold getCollection. apply (Hfetch _ _ _ _ (fun err => err)).
  - unfold getTransaction. cbn zeta. destruct includeResult.
    + destruct (mustBuildURL h ("/transactions/" ++ id)) as [u|];
        [|reflexivity].
      apply (Hfetch _ _ (Some _)).
    + apply Hfetch.
  - unfold sendTransaction. rewrite requests_bind, requests_post.
    destruct (mustBuildURL h "/transactions") as [u|]; [|reflexivity].
    destruct (run net (post h (Some u) transaction (Pointer Transaction_zero)))
      as [[e v]|reason]; reflexivity.
Qed.

(** ** A failure status, seen from the operations *)

Lemma contains_Wrap (sub err message : string) :
  contains sub err -> contains sub (errors_Wrap err message).
Proof.
  intros (before & after & ->). unfold errors_Wrap.
  exists (message ++ ": " ++ before), after. now rewrite !append_assoc.
Qed.

Lemma get_failure_status `{Library} {A : Type} (h : Handler) (u : url.URL)
  (model : iface A) (net : transport) (res : Response) (body : string) :
  net (GET (URL_String u)) = Ok res -> Body res = Ok body ->
  (400 <= StatusCode res)%Z ->
  exists msg : error,
    run net (get h (Some u) model) = Returns (Some msg, referent model)
    /\ contains (itoa (StatusCode res)) msg /\ contains body msg.
Proof.
  intros Hnet Hbody Hstatus. cbn [run get]. rewrite Hnet, Hbody.
  destruct (Z.geb_spec (StatusCode res) 400) as [_|Hlt]; [|lia].
  eexists. split; [reflexivity|]. apply status_message_contains.
Qed.

Lemma post_failure_status `{Library} {A : Type} (h : Handler) (u : url.URL)
  (sent : string) (model : iface A) (net : transport) (res : Response)
  (body : string) :
  net (POST (URL_String u) "application/json" sent) = Ok res ->
  Body res = Ok body -> (400 <= StatusCode res)%Z ->
  exists msg : error,
    run net (post h (Some u) sent model) = Returns (Some msg, referent model)
    /\ contains (itoa (StatusCode res)) msg /\ contains body msg.
Proof.
  intros Hnet Hbody Hstatus. cbn [run post]. rewrite Hnet, Hbody.
  destruct (Z.geb_spec (StatusCode res) 400) as [_|Hlt]; [|lia].
  eexists. split; [reflexivity|]. apply status_message_contains.
Qed.

Lemma fetch_failure_status `{Library} {A : Type} {T : JSONTarget A}
  (h : Handler) (u : url.URL) (zero : A) (wrap : string)
  (net : transport) (res : Response) (body : string) :
  net (GET (URL_String u)) = Ok res -> Body res = Ok body ->
  (400 <= StatusCode res)%Z ->
  exists msg : error,
    run net ('(err, v) ← get h (Some u) (Pointer zero);
             match err with
             | Some err => Ret (Err (errors_Wrap err wrap))
             | None => Ret (Ok v)
             end) = Returns (Err msg)
    /\ contains (itoa (StatusCode res)) msg /\ contains body msg.
Proof.
  intros Hnet Hbody Hstatus.
  destruct (get_failure_status h u (Pointer zero) net res body Hnet Hbody
              Hstatus) as (msg & Hrun & Hcode & Htext).
  exists (errors_Wrap msg wrap). rewrite run_bind, Hrun.
  split; [reflexivity|]. split; now apply contains_Wrap.
Qed.

(** X12.  When the server answers every request with a response whose
    status is 400 or more and whose body can be read, every operation whose
    URL is built returns an error, never a value, and the message of the
    error holds the decimal status code and the text of the body; an
    operation whose URL is not built panics.  [executeScriptAt] returns the
    error of [json.Marshal] instead when the script body cannot be
    encoded. *)
Theorem failure_status_reaches_every_caller `{Library} (h : Handler)
  (net : transport) (res : Response) (body : string) :
  (forall req : Request, net req = Ok res) ->
  Body res = Ok body ->
  (400 <= StatusCode res)%Z ->
  let reported {A : Type} (o : outcome (result A)) : Prop :=
    exists msg : error,
      o = Returns (Err msg)
      /\ contains (itoa (StatusCode res)) msg /\ contains body msg in
  let built {A : Type} (path : string) (o : outcome (result A)) : Prop :=
    match mustBuildURL h path with
    | Some _ => reported o
    | None => o = Panics nil_dereference
    end in
  (forall id, built ("/blocks/" ++ id) (run net (getBlockByID h id)))
  /\ (forall height, built "/blocks" (run net (getBlockByHeight h height)))
  /\ (forall address height,
         built ("/accounts/" ++ address)
           (run net (getAccount h address height)))
  /\ (forall id, built ("/collections/" ++ id) (run net (getCollection h id)))
  /\ (forall id includeResult,
         built ("/transactions/" ++ id)
           (run net (getTransaction h id includeResult)))
  /\ (forall query script arguments,
         match json_Marshal {| Script := script; Arguments := arguments |}
         with
         | Ok _ =>
             built "/scripts"
               (run net (executeScriptAt h query script arguments))
         | Err err =>
             run net (executeScriptAt h query script arguments)
             = match mustBuildURL h "/scripts" with
               | Some _ => Returns (Err err)
               | None => Panics nil_dereference
               end
         end)
  /\ (forall transaction,
         match mustBuildURL h "/transactions" with
         | Some _ =>
             exists msg : error,
               run net (sendTransaction h transaction) = Returns (Some msg)
               /\ contains (itoa (StatusCode res)) msg /\ contains body msg
         | None =>
             run net (sendTransaction h transaction) = Panics nil_dereference
         end).
Proof.
  intros Hnet Hbody Hstatus reported built. subst reported built. cbn zeta.
  split; [|split; [|split; [|split; [|split; [|split]]]]].
  - intros id. unfold getBlockByID.
    destruct (mustBuildURL h ("/blocks/" ++ id)) as [u|]; [|reflexivity].
    now apply fetch_failure_status.
  - intros height. unfold getBlockByHeight.
    destruct (mustBuildURL h "/blocks") as [u|]; [|reflexivity].
    cbn zeta.
    destruct (get_failure_status h (add_query u "height" height)
                (Plain (@nil Block)) net res body (Hnet _) Hbody Hstatus)
      as (msg & Hrun & Hcode & Htext).
    eexists. rewrite run_bind, Hrun. split; [reflexivity|].
    split; now apply contains_Wrap.
  - intros address height. unfold getAccount.
    destruct (mustBuildURL h ("/accounts/" ++ address)) as [u|];
      [|reflexivity].
    cbn zeta. now apply fetch_failure_status.
  - intros id. unfold getCollection.
    destruct (mustBuildURL h ("/collections/" ++ id)) as [u|]; [|reflexivity].
    destruct (get_failure_status h u (Pointer Collection_zero) net res body
                (Hnet _) Hbody Hstatus) as (msg & Hrun & Hcode & Htext).
    exists msg. rewrite run_bind, Hrun. now split.
  - intros id includeResult. unfold getTransaction. cbn zeta.
    destruct (mustBuildURL h ("/transactions/" ++ id)) as [u|];
      destruct includeResult; try reflexivity;
      now apply fetch_failure_status.
  - intros query script arguments. unfold executeScriptAt.
    destruct (mustBuildURL h "/scripts") as [u|];
      [|destruct (json_Marshal _); reflexivity].
    cbn zeta. destruct (json_Marshal _) as [sent|err]; [|reflexivity].
    match goal with
    | |- context [post h (Some ?v) sent ?m] =>
        destruct (post_failure_status h v sent m net res body (Hnet _) Hbody
                    Hstatus) as (msg & Hrun & Hcode & Htext)
    end.
    exists msg. rewrite run_bind, Hrun. now split.
  - intros transaction. unfold sendTransaction.
    destruct (mustBuildURL h "/transactions") as [u|]; [|reflexivity].
    destruct (post_failure_status h u transaction (Pointer Transaction_zero)
                net res body (Hnet _) Hbody Hstatus)
      as (msg & Hrun & Hcode & Htext).
    exists msg. rewrite run_bind, Hrun. now split.
Qed.

Lemma failure_status_reaches_every_caller_witness :
  exists msg : error,
    run (constant_net 404 "no such collection")
      (@getCollection sample_library NewDefaultTestnetHandler "ab")
    = Returns (Err msg)
    /\ contains "404" msg /\ contains "no such collection" msg.
Proof.
  destruct (@failure_status_reaches_every_caller sample_library
              NewDefaultTestnetHandler (constant_net 404 "no such collection")
              {| StatusCode := 404; Body := Ok "no such collection" |}
              "no such collection" (fun _ => eq_refl) eq_refl)
    as (_ & _ & _ & Hcollection & _).
  { cbn. lia. }
  exact (Hcollection "ab").
Defined.

(** ** Identifiers with control bytes *)

Lemma stringContainsCTLByte_app (a b : string) :
  url.stringContainsCTLByte (a ++ b)
  = url.stringContainsCTLByte a || url.stringContainsCTLByte b.
Proof.
  induction a as [|c a IH]; [reflexivity|].
  rewrite append_cons. cbn [url.stringContainsCTLByte].
  now rewrite IH, orb_assoc.
Qed.

Lemma control_byte_builds_nothing (h : Handler) (path id : string) :
  url.stringContainsCTLByte id = true -> mustBuildURL h (path ++ id) = None.
Proof.
  intros Hid. unfold mustBuildURL, url.ParseRequestURI, url.parse.
  now rewrite !stringContainsCTLByte_app, Hid, !orb_true_r.
Qed.

(** X13.  An identifier or address that holds a control byte (a byte below
    32, or 127) is not reported as an error: whatever the base of the
    handler, the parser rejects the text, [mustBuildURL] returns nil, and
    [getBlockByID], [getAccount], [getCollection] and [getTransaction]
    panic before any request. *)
Theorem control_byte_in_identifier_panics `{Library} (h : Handler)
  (id : string) (net : transport) :
  url.stringContainsCTLByte id = true ->
  (run net (getBlockByID h id) = Panics nil_dereference
   /\ requests net (getBlockByID h id) = [])
  /\ (forall height,
         run net (getAccount h id height) = Panics nil_dereference
         /\ requests net (getAccount h id height) = [])
  /\ (run net (getCollection h id) = Panics nil_dereference
      /\ requests net (getCollection h id) = [])
  /\ (forall includeResult,
         run net (getTransaction h id includeResult) = Panics nil_dereference
         /\ requests net (getTransaction h id includeResult) = []).
Proof.
  intros Hid. split; [|split; [|split]].
  - unfold getBlockByID. now rewrite control_byte_builds_nothing.
  - intros height. unfold getAccount.
    now rewrite control_byte_builds_nothing.
  - unfold getCollection. now rewrite control_byte_builds_nothing.
  - intros includeResult. unfold getTransaction. cbn zeta.
    rewrite control_byte_builds_nothing by exact Hid.
    now destruct includeResult.
Qed.

Lemma control_byte_in_identifier_panics_witness :
  run (constant_net 200 "{}")
    (@getCollection sample_library NewDefaultMainnetHandler
       (String (ascii_of_nat 10) "ab"))
  = Panics nil_dereference.
Proof.
  destruct (@control_byte_in_identifier_panics sample_library
              NewDefaultMainnetHandler (String (ascii_of_nat 10) "ab")
              (constant_net 200 "{}") eq_refl)
    as (_ & _ & [Hcollection _] & _).
  exact Hcollection.
Defined.

(** ** The query of a script execution *)

(** The loop [for k, v := range query { q.Add(k, v) }] leaves the keys it
    does not visit as they were. *)
Lemma range_Add_lookup_other (query : list (string * string))
  (q : url.Values) (k : string) :
  ~ In k (map fst query) ->
  fold_left (fun q kv => url.Values_Add q (fst kv) (snd kv)) query q !! k
  = q !! k.
Proof.
  revert q. induction query as [|[k1 v1] query IH]; intros q Hk;
    [reflexivity|].
  cbn [fold_left fst snd]. rewrite IH.
  - apply Values_Add_lookup_other. intros ->. apply Hk. now left.
  - intros Hin. apply Hk. now right.
Qed.

(** Over a map, whose keys are distinct, the loop appends to each key it
    visits the one value the map holds for it. *)
Lemma range_Add_lookup (query : list (string * string)) (q : url.Values)
  (k v : string) :
  NoDup (map fst query) -> In (k, v) query ->
  fold_left (fun q kv => url.Values_Add q (fst kv) (snd kv)) query q !! k
  = Some (default [] (q !! k) ++ [v])%list.
Proof.
  revert q. induction query as [|[k1 v1] query IH]; intros q Hkeys Hin;
    [destruct Hin|].
  cbn [map fst] in Hkeys. apply NoDup_cons_iff in Hkeys as [Hfresh Hkeys].
  cbn [fold_left fst snd]. destruct Hin as [[= -> ->]|Hin].
  - rewrite range_Add_lookup_other by exact Hfresh.
    apply Values_Add_lookup.
  - rewrite IH by assumption. rewrite Values_Add_lookup_other; [reflexivity|].
    intros ->. apply Hfresh. apply (in_map fst) in Hin. exact Hin.
Qed.

Lemma range_Add_Permutation (query query' : list (string * string))
  (q : url.Values) :
  NoDup (map fst query) -> Permutation query query' ->
  fold_left (fun q kv => url.Values_Add q (fst kv) (snd kv)) query q
  = fold_left (fun q kv => url.Values_Add q (fst kv) (snd kv)) query' q.
Proof.
  intros Hkeys Hperm. apply map_eq. intros k.
  assert (Hkeys' : NoDup (map fst query')).
  { eapply Permutation_NoDup; [|exact Hkeys]. now apply Permutation_map. }
  destruct (in_dec String.string_dec k (map fst query)) as [Hin|Hout].
  - apply in_map_iff in Hin as ([k' v] & <- & Hin). cbn [fst].
    transitivity (Some (default [] (q !! k') ++ [v])%list).
    + now apply range_Add_lookup.
    + symmetry. apply range_Add_lookup; [assumption|].
      now apply (Permutation_in _ Hperm).
  - transitivity (q !! k).
    + now apply range_Add_lookup_other.
    + symmetry. apply range_Add_lookup_other.
      intros Hin. apply Hout.
      eapply Permutation_in; [|exact Hin].
      apply Permutation_map. now symmetry.
Qed.

(** X14.  [executeScriptAt] over any map of query entries: when the URL for
    "/scripts" is built and the script body is encoded, it issues one POST
    of that body to the URL whose query is the encoding of values [q] in
    which every key of the map has the map's value appended to the values
    the URL held for it, and every other key is as it was.  The order in
    which the [range] loop visits the map does not change the operation. *)
Theorem executeScriptAt_adds_every_entry `{Library} (h : Handler)
  (u : url.URL) (query : list (string * string)) (script : string)
  (arguments : list string) (body : string) (net : transport) :
  NoDup (map fst query) ->
  mustBuildURL h "/scripts" = Some u ->
  json_Marshal {| Script := script; Arguments := arguments |} = Ok body ->
  (exists q : url.Values,
      requests net (executeScriptAt h query script arguments)
      = [POST (URL_String (url.set_RawQuery u (Values_Encode q)))
           "application/json" body]
      /\ (forall k v, In (k, v) query ->
            q !! k = Some (default [] (URL_Query u !! k) ++ [v])%list)
      /\ (forall k, ~ In k (map fst query) -> q !! k = URL_Query u !! k))
  /\ (forall query', Permutation query query' ->
        executeScriptAt h query' script arguments
        = executeScriptAt h query script arguments).
Proof.
  intros Hkeys Hurl Hbody. split.
  - eexists. split; [|split].
    + unfold executeScriptAt. rewrite Hurl, Hbody. cbn zeta.
      rewrite requests_bind, requests_post.
      destruct (run net (post _ _ _ _)) as [[[e|] v]|reason]; reflexivity.
    + intros k v Hin. now apply range_Add_lookup.
    + intros k Hout. now apply range_Add_lookup_other.
  - intros query' Hperm. unfold executeScriptAt. rewrite Hurl, Hbody.
    cbn zeta. now rewrite (range_Add_Permutation query query').
Qed.

Lemma executeScriptAt_adds_every_entry_witness :
  requests (constant_net 200 "7")
    (@executeScriptAt sample_library NewDefaultTestnetHandler
       [("block_id", "ab"); ("block_height", "12")]
       "pub fun main(): Int { return 7 }" [])
  = requests (constant_net 200 "7")
      (@executeScriptAt sample_library NewDefaultTestnetHandler
         [("block_height", "12"); ("block_id", "ab")]
         "pub fun main(): Int { return 7 }" []).
Proof.
  destruct (@executeScriptAt_adds_every_entry sample_library
              NewDefaultTestnetHandler
              {| url.Scheme := "https"; url.Opaque := EmptyString;
                 url.User := None; url.Host := "rest-testnet.onflow.org";
                 url.Path := "/v1//scripts"; url.RawPath := EmptyString;
                 url.ForceQuery := false; url.RawQuery := EmptyString |}
              [("block_height", "12"); ("block_id", "ab")]
              "pub fun main(): Int { return 7 }" []
              "pub fun main(): Int { return 7 }" (constant_net 200 "7"))
    as [_ Horder]; [|reflexivity|reflexivity|].
  { repeat constructor; cbn; intuition discriminate. }
  now rewrite (Horder [("block_id", "ab"); ("block_height", "12")])
    by apply perm_swap.
Defined.

(** ** The URLs the preset handlers build *)

Lemma plain_char_facts (c : ascii) :
  url.is_letter c || url.is_digit c || url.one_of "/-_." c = true ->
  ((url.code c <? 32)%N || (url.code c =? 127)%N = false)
  /\ Ascii.eqb c "?" = false
  /\ Ascii.eqb c "%" = false
  /\ Ascii.eqb c "+" = false
  /\ url.shouldEscape c url.encodePath = false.
Proof.
  destruct c as [[] [] [] [] [] [] [] []]; vm_compute; intros H;
    repeat split; try reflexivity; discriminate H.
Qed.

Lemma plain_path_app (a b : string) :
  plain_path (a ++ b) = plain_path a && plain_path b.
Proof.
  unfold plain_path. induction a as [|c a IH]; [reflexivity|].
  rewrite append_cons. cbn [list_ascii_of_string forallb].
  now rewrite IH, andb_assoc.
Qed.

Lemma plain_no_CTL (p : string) :
  plain_path p = true -> url.stringContainsCTLByte p = false.
Proof.
  induction p as [|c p IH]; [reflexivity|]. unfold plain_path.
  cbn [list_ascii_of_string forallb url.stringContainsCTLByte].
  intros [Hc Hp]%andb_true_iff.
  destruct (plain_char_facts c Hc) as (-> & _). now apply IH.
Qed.

Lemma Count_app (c : ascii) (a b : string) :
  url.Count c (a ++ b) = (url.Count c a + url.Count c b)%nat.
Proof.
  induction a as [|x a IH]; [reflexivity|].
  rewrite append_cons. cbn [url.Count]. rewrite IH. lia.
Qed.

Lemma plain_Count (p : string) :
  plain_path p = true -> url.Count "?" p = 0%nat.
Proof.
  induction p as [|c p IH]; [reflexivity|]. unfold plain_path.
  cbn [list_ascii_of_string forallb url.Count].
  intros [Hc Hp]%andb_true_iff.
  destruct (plain_char_facts c Hc) as (_ & -> & _). now apply IH.
Qed.

Lemma Cut_absent (c : ascii) (s : string) :
  url.Count c s = 0%nat -> url.Cut c s = (s, EmptyString).
Proof.
  induction s as [|x s IH]; [reflexivity|]. cbn [url.Count url.Cut].
  destruct (Ascii.eqb x c); [discriminate|]. intros H. now rewrite IH.
Qed.

Lemma split_query_absent (s : string) :
  url.Count "?" s = 0%nat -> url.split_query s = (s, EmptyString, false).
Proof.
  intros H. unfold url.split_query. rewrite H, andb_false_r.
  now rewrite Cut_absent.
Qed.

Lemma upto_app (a b : string) : url.upto (String.length a) (a ++ b) = a.
Proof.
  unfold url.upto. induction a as [|x a IH].
  - now destruct b.
  - rewrite append_cons. cbn [String.length substring]. now rewrite IH.
Qed.

Lemma substring_all (s : string) : substring 0 (String.length s) s = s.
Proof.
  induction s as [|x s IH]; [reflexivity|].
  cbn [String.length substring]. now rewrite IH.
Qed.

Lemma length_app (a b : string) :
  String.length (a ++ b) = (String.length a + String.length b)%nat.
Proof.
  induction a as [|x a IH]; [reflexivity|].
  rewrite append_cons. cbn [String.length]. now rewrite IH.
Qed.

Lemma from_app (a b : string) : url.from (String.length a) (a ++ b) = b.
Proof.
  unfold url.from. rewrite length_app.
  replace (String.length a + String.length b - String.length a)%nat
    with (String.length b) by lia.
  induction a as [|x a IH]; [apply substring_all|].
  rewrite append_cons. cbn [String.length substring]. exact IH.
Qed.

(** [getScheme] on a text that starts with letters and a colon. *)
Lemma getScheme_loop_letters (rawURL scheme rest : string) (i : nat) :
  forallb url.is_letter (list_ascii_of_string scheme) = true ->
  url.getScheme_loop rawURL i (scheme ++ String ":" rest)
  = url.getScheme_loop rawURL (i + String.length scheme) (String ":" rest).
Proof.
  revert i. induction scheme as [|c scheme IH]; intros i Hletters.
  - change (EmptyString ++ String ":" rest) with (String ":" rest).
    cbn [String.length]. now rewrite Nat.add_0_r.
  - cbn [list_ascii_of_string forallb] in Hletters.
    apply andb_true_iff in Hletters as [Hc Hletters].
    rewrite append_cons. cbn [url.getScheme_loop]. rewrite Hc.
    rewrite IH by exact Hletters. cbn [String.length].
    now rewrite Nat.add_succ_r.
Qed.

Lemma getScheme_letters (c : ascii) (scheme rest : string) :
  forallb url.is_letter (list_ascii_of_string (String c scheme)) = true ->
  url.getScheme (String c scheme ++ String ":" rest)
  = Ok (String c scheme, rest).
Proof.
  intros Hletters. unfold url.getScheme.
  rewrite getScheme_loop_letters by exact Hletters.
  cbn [url.getScheme_loop Nat.add String.length Nat.eqb].
  change (url.is_letter ":") with false.
  change (url.is_digit ":" || url.one_of "+-." ":") with false.
  change (Ascii.eqb ":" ":") with true. cbv iota.
  now rewrite (upto_app (String c scheme)).
Qed.

Lemma unescape_plain (p : string) :
  plain_path p = true -> url.unescape url.encodePath p = Ok p.
Proof.
  induction p as [|c p IH]; [reflexivity|]. unfold plain_path.
  cbn [list_ascii_of_string forallb].
  intros [Hc Hp]%andb_true_iff.
  destruct (plain_char_facts c Hc) as (_ & _ & Hpercent & Hplus & _).
  cbn [url.unescape]. rewrite Hpercent, Hplus.
  cbn [url.is_host_mode andb]. now rewrite IH.
Qed.

Lemma escape_plain (p : string) :
  plain_path p = true -> url.escape p url.encodePath = p.
Proof.
  induction p as [|c p IH]; [reflexivity|]. unfold plain_path.
  cbn [list_ascii_of_string forallb].
  intros [Hc Hp]%andb_true_iff.
  destruct (plain_char_facts c Hc) as (_ & _ & _ & _ & Hescape).
  cbn [url.escape]. rewrite Hescape. now rewrite IH.
Qed.

Lemma Index_app (c : ascii) (a b : string) :
  url.Index c a = None ->
  url.Index c (a ++ String c b) = Some (String.length a).
Proof.
  induction a as [|x a IH].
  - intros _. change (EmptyString ++ String c b) with (String c b).
    cbn [url.Index]. now rewrite Ascii.eqb_refl.
  - rewrite append_cons. cbn [url.Index].
    destruct (Ascii.eqb x c); [discriminate|].
    destruct (url.Index c a); [discriminate|]. intros _.
    now rewrite IH.
Qed.

Lemma HasPrefix_slash (s : string) : url.HasPrefix (String "/" s) "/" = true.
Proof. unfold url.HasPrefix. cbn [String.prefix]. now destruct s. Qed.

Lemma parse_opaque (c : ascii) (scheme rest : string) :
  forallb url.is_letter (list_ascii_of_string (String c scheme)) = true ->
  url.stringContainsCTLByte (String c scheme ++ String ":" rest) = false ->
  url.Count "?" rest = 0%nat ->
  url.HasPrefix rest "/" = false ->
  url.parse (String c scheme ++ String ":" rest)
  = Ok {| url.Scheme := url.ToLower (String c scheme); url.Opaque := rest;
          url.User := None; url.Host := EmptyString;
          url.Path := EmptyString; url.RawPath := EmptyString;
          url.ForceQuery := false; url.RawQuery := EmptyString |}.
Proof.
  intros Hletters Hctl Hquery Hslash. unfold url.parse. rewrite Hctl.
  rewrite getScheme_letters by exact Hletters.
  rewrite append_cons.
  destruct (String.eqb_spec (String c (scheme ++ String ":" rest)) "*")
    as [Hstar|_].
  { injection Hstar as _ Hstar. now destruct scheme. }
  cbn [String.eqb].
  cbn [mbind result_bind]. rewrite split_query_absent by exact Hquery.
  rewrite Hslash. cbn [url.ToLower String.eqb negb]. reflexivity.
Qed.

Lemma from_two (s : string) : url.from 2 (String "/" (String "/" s)) = s.
Proof. apply (from_app "//"). Qed.

Lemma parse_hierarchical (c : ascii) (scheme authority path host : string)
  (user : option url.Userinfo) :
  let rest := String "/" (String "/" (authority ++ String "/" path)) in
  forallb url.is_letter (list_ascii_of_string (String c scheme)) = true ->
  url.stringContainsCTLByte (String c scheme ++ String ":" rest) = false ->
  url.Count "?" authority = 0%nat ->
  url.Index "/" authority = None ->
  url.parseAuthority authority = Ok (user, host) ->
  plain_path path = true ->
  url.parse (String c scheme ++ String ":" rest)
  = Ok {| url.Scheme := url.ToLower (String c scheme);
          url.Opaque := EmptyString;
          url.User := user; url.Host := host;
          url.Path := String "/" path; url.RawPath := EmptyString;
          url.ForceQuery := false; url.RawQuery := EmptyString |}.
Proof.
  intros rest Hletters Hctl Hquery Hslash Hauthority Hpath.
  assert (Hplain : plain_path (String "/" path) = true).
  { unfold plain_path in *. cbn [list_ascii_of_string forallb].
    now rewrite Hpath. }
  assert (Hrest : url.Count "?" rest = 0%nat).
  { subst rest. cbn [url.Count]. change (Ascii.eqb "/" "?") with false.
    rewrite Count_app, Hquery. now apply (plain_Count (String "/" path)). }
  unfold url.parse. rewrite Hctl.
  rewrite getScheme_letters by exact Hletters.
  rewrite append_cons.
  destruct (String.eqb_spec (String c (scheme ++ String ":" rest)) "*")
    as [Hstar|_].
  { injection Hstar as _ Hstar. now destruct scheme. }
  cbn [String.eqb mbind result_bind].
  rewrite split_query_absent by exact Hrest.
  replace (url.HasPrefix rest "/") with true by reflexivity.
  replace (url.HasPrefix rest "//") with true
    by (unfold url.HasPrefix, rest; cbn [String.prefix];
        now destruct (authority ++ String "/" path)).
  cbn [url.ToLower String.eqb negb andb]. unfold rest.
  rewrite from_two, Index_app by exact Hslash.
  rewrite upto_app, from_app, Hauthority. cbn [mbind result_bind].
  rewrite unescape_plain by exact Hplain. cbn [mbind result_bind].
  now rewrite escape_plain, String.eqb_refl.
Qed.

Lemma plain_prefix_no_CTL (prefix p : string) :
  url.stringContainsCTLByte prefix = false -> plain_path p = true ->
  url.stringContainsCTLByte (prefix ++ p) = false.
Proof.
  intros Hprefix Hp.
  now rewrite stringContainsCTLByte_app, Hprefix, plain_no_CTL.
Qed.

Lemma emulator_URL (p : string) :
  plain_path p = true ->
  mustBuildURL NewDefaultEmulatorHandler p
  = Some (opaque_URL "http" ("127.0.0.1:8888/v1" ++ p)).
Proof.
  intros Hp. unfold mustBuildURL, url.ParseRequestURI.
  change (base NewDefaultEmulatorHandler ++ p)
    with (String "h" "ttp" ++ String ":" ("127.0.0.1:8888/v1" ++ p)).
  rewrite parse_opaque; [reflexivity|reflexivity| | |reflexivity].
  - now apply (plain_prefix_no_CTL "http:127.0.0.1:8888/v1").
  - rewrite Count_app, (plain_Count p Hp). reflexivity.
Qed.

Lemma network_URL (host p : string) :
  url.stringContainsCTLByte host = false ->
  url.Count "?" host = 0%nat ->
  url.Index "/" host = None ->
  url.parseAuthority host = Ok (None, host) ->
  plain_path p = true ->
  mustBuildURL {| client := DefaultClient;
                  base := "https://" ++ host ++ "/v1/" |} p
  = Some (host_URL "https" host ("/v1/" ++ p)).
Proof.
  intros Hctl Hquery Hslash Hauthority Hp.
  unfold mustBuildURL, url.ParseRequestURI. cbn [base].
  replace (("https://" ++ host ++ "/v1/") ++ p)
    with (String "h" "ttps"
          ++ String ":" (String "/" (String "/"
                                       (host ++ String "/" ("v1/" ++ p))))).
  2:{ rewrite !append_assoc. reflexivity. }
  rewrite (parse_hierarchical _ _ host ("v1/" ++ p) host None);
    try assumption; try reflexivity.
  change (String "h" "ttps"
          ++ String ":" (String "/" (String "/"
                                       (host ++ String "/" ("v1/" ++ p)))))
    with ("https://" ++ host ++ "/v1/" ++ p).
  rewrite !stringContainsCTLByte_app, Hctl, (plain_no_CTL p Hp).
  reflexivity.
Qed.

(** X15.  For every path made of letters, digits, slash, minus, underscore
    and dot, each preset handler builds a URL.  The emulator's base has no
    slashes after its scheme, so its URL is opaque: it has no host and no
    path, and the whole text after "http:" is its opaque part.  The bases
    of the two networks end in a slash and every path of an operation
    starts with one, so their URLs have the host of the network and a path
    with two slashes after "/v1". *)
Theorem preset_handlers_build_plain_paths (p : string) :
  plain_path p = true ->
  mustBuildURL NewDefaultEmulatorHandler (String "/" p)
  = Some (opaque_URL "http" ("127.0.0.1:8888/v1/" ++ p))
  /\ mustBuildURL NewDefaultTestnetHandler (String "/" p)
     = Some (host_URL "https" "rest-testnet.onflow.org" ("/v1//" ++ p))
  /\ mustBuildURL NewDefaultMainnetHandler (String "/" p)
     = Some (host_URL "https" "rest-mainnet.onflow.org" ("/v1//" ++ p)).
Proof.
  intros Hp.
  assert (Hpath : plain_path (String "/" p) = true).
  { unfold plain_path in *. cbn [list_ascii_of_string forallb].
    now rewrite Hp. }
  split; [|split].
  - now rewrite emulator_URL.
  - now rewrite (network_URL "rest-testnet.onflow.org").
  - now rewrite (network_URL "rest-mainnet.onflow.org").
Qed.

Lemma preset_handlers_build_plain_paths_witness :
  mustBuildURL NewDefaultTestnetHandler "/blocks/0a1b"
  = Some (host_URL "https" "rest-testnet.onflow.org" "/v1//blocks/0a1b").
Proof.
  destruct (preset_handlers_build_plain_paths "blocks/0a1b" eq_refl)
    as (_ & Htestnet & _).
  exact Htestnet.
Defined.

(** ** Where the operations panic *)

Lemma get_returns `{Library} {A : Type} (h : Handler) (u : url.URL)
  (model : iface A) (net : transport) :
  exists r, run net (get h (Some u) model) = Returns r.
Proof.
  cbn [get run]. answer_cases net; try (eexists; reflexivity).
  destruct (Unmarshal body model) as [x [e|]]; eexists; reflexivity.
Qed.

Lemma post_returns `{Library} {A : Type} (h : Handler) (u : url.URL)
  (sent : string) (model : iface A) (net : transport) :
  exists r, run net (post h (Some u) sent model) = Returns r.
Proof.
  cbn [post run]. answer_cases net; try (eexists; reflexivity).
  destruct (Unmarshal body model) as [x [e|]]; eexists; reflexivity.
Qed.

(** With its URL built, an operation returns. *)
Lemma built_operations_return `{Library} (h : Handler) (net : transport) :
  (forall id,
      mustBuildURL h ("/blocks/" ++ id) <> None ->
      exists r, run net (getBlockByID h id) = Returns r)
  /\ (forall height,
         mustBuildURL h "/blocks" <> None ->
         exists r, run net (getBlockByHeight h height) = Returns r)
  /\ (forall address height,
         mustBuildURL h ("/accounts/" ++ address) <> None ->
         exists r, run net (getAccount h address height) = Returns r)
  /\ (forall id,
         mustBuildURL h ("/collections/" ++ id) <> None ->
         exists r, run net (getCollection h id) = Returns r)
  /\ (forall query script arguments,
         mustBuildURL h "/scripts" <> None ->
         exists r,
           run net (executeScriptAt h query script arguments) = Returns r)
  /\ (forall id includeResult,
         mustBuildURL h ("/transactions/" ++ id) <> None ->
         exists r, run net (getTransaction h id includeResult) = Returns r)
  /\ (forall transaction,
         mustBuildURL h "/transactions" <> None ->
         exists r, run net (sendTransaction h transaction) = Returns r).
Proof.
  split; [|split; [|split; [|split; [|split; [|split]]]]].
  - intros id Hurl. unfold getBlockByID.
    destruct (mustBuildURL h ("/blocks/" ++ id)) as [u|]; [|now destruct Hurl].
    rewrite run_bind.
    destruct (get_returns h u (Pointer Block_zero) net) as [[[e|] v] ->];
      eexists; reflexivity.
  - intros height Hurl. unfold getBlockByHeight.
    destruct (mustBuildURL h "/blocks") as [u|]; [|now destruct Hurl].
    cbn zeta. rewrite run_bind.
    destruct (get_returns h (add_query u "height" height)
                (Plain (@nil Block)) net) as [[[e|] v] ->];
      [eexists; reflexivity|].
    destruct (List.length v =? 0)%nat; eexists; reflexivity.
  - intros address height Hurl. unfold getAccount.
    destruct (mustBuildURL h ("/accounts/" ++ address)) as [u|];
      [|now destruct Hurl].
    cbn zeta. rewrite run_bind.
    destruct (get_returns h (add_query u "height" height)
                (Pointer Account_zero) net) as [[[e|] v] ->];
      eexists; reflexivity.
  - intros id Hurl. unfold getCollection.
    destruct (mustBuildURL h ("/collections/" ++ id)) as [u|];
      [|now destruct Hurl].
    rewrite run_bind.
    destruct (get_returns h u (Pointer Collection_zero) net)
      as [[[e|] v] ->]; eexists; reflexivity.
  - intros query script arguments Hurl. unfold executeScriptAt.
    destruct (mustBuildURL h "/scripts") as [u|]; [|now destruct Hurl].
    cbn zeta. destruct (json_Marshal _) as [sent|err];
      [|eexists; reflexivity].
    rewrite run_bind.
    match goal with
    | |- context [post h (Some ?v) sent ?m] =>
        destruct (post_returns h v sent m net) as [[[e|] x] ->]
    end; eexists; reflexivity.
  - intros id includeResult Hurl. unfold getTransaction. cbn zeta.
    destruct (mustBuildURL h ("/transactions/" ++ id)) as [u|];
      [|now destruct Hurl].
    destruct includeResult; rewrite run_bind.
    + destruct (get_returns h (add_query u "expand" "result")
                  (Pointer Transaction_zero) net) as [[[e|] v] ->];
        eexists; reflexivity.
    + destruct (get_returns h u (Pointer Transaction_zero) net)
        as [[[e|] v] ->]; eexists; reflexivity.
  - intros transaction Hurl. unfold sendTransaction.
    destruct (mustBuildURL h "/transactions") as [u|]; [|now destruct Hurl].
    rewrite run_bind.
    destruct (post_returns h u transaction (Pointer Transaction_zero) net)
      as [[e v] ->]; eexists; reflexivity.
Qed.

(** X16.  An operation panics exactly when [mustBuildURL] returned nil for
    its path, and the panic is the nil dereference: with the URL built,
    every operation returns, whatever the client, the reader of the body and
    the decoder answer. *)
Theorem operations_panic_only_without_URL `{Library} (h : Handler)
  (net : transport) :
  let outcome_of {A : Type} (path : string) (o : outcome A) : Prop :=
    match mustBuildURL h path with
    | Some _ => exists r, o = Returns r
    | None => o = Panics nil_dereference
    end in
  (forall id, outcome_of ("/blocks/" ++ id) (run net (getBlockByID h id)))
  /\ (forall height,
         outcome_of "/blocks" (run net (getBlockByHeight h height)))
  /\ (forall address height,
         outcome_of ("/accounts/" ++ address)
           (run net (getAccount h address height)))
  /\ (forall id,
         outcome_of ("/collections/" ++ id) (run net (getCollection h id)))
  /\ (forall query script arguments,
         outcome_of "/scripts"
           (run net (executeScriptAt h query script arguments)))
  /\ (forall id includeResult,
         outcome_of ("/transactions/" ++ id)
           (run net (getTransaction h id includeResult)))
  /\ (forall transaction,
         outcome_of "/transactions" (run net (sendTransaction h transaction))).
Proof.
  cbn zeta.
  destruct (built_operations_return h net)
    as (HblockID & Hheight & Haccount & Hcollection & Hscript & Htransaction
        & Hsend).
  split; [|split; [|split; [|split; [|split; [|split]]]]].
  - intros id. specialize (HblockID id). unfold getBlockByID in *.
    destruct (mustBuildURL h ("/blocks/" ++ id)); [now apply HblockID|].
    reflexivity.
  - intros height. specialize (Hheight height). unfold getBlockByHeight in *.
    destruct (mustBuildURL h "/blocks"); [now apply Hheight|]. reflexivity.
  - intros address height. specialize (Haccount address height).
    unfold getAccount in *.
    destruct (mustBuildURL h ("/accounts/" ++ address));
      [now apply Haccount|].
    reflexivity.
  - intros id. specialize (Hcollection id). unfold getCollection in *.
    destruct (mustBuildURL h ("/collections/" ++ id));
      [now apply Hcollection|].
    reflexivity.
  - intros query script arguments.
    specialize (Hscript query script arguments). unfold executeScriptAt in *.
    destruct (mustBuildURL h "/scripts"); [now apply Hscript|]. reflexivity.
  - intros id includeResult. specialize (Htransaction id includeResult).
    unfold getTransaction in *. cbn zeta in *.
    destruct (mustBuildURL h ("/transactions/" ++ id));
      [now apply Htransaction|].
    now destruct includeResult.
  - intros transaction. specialize (Hsend transaction).
    unfold sendTransaction in *.
    destruct (mustBuildURL h "/transactions"); [now apply Hsend|].
    reflexivity.
Qed.

Lemma preset_URL_built (h : Handler) (p : string) :
  h = NewDefaultEmulatorHandler \/ h = NewDefaultTestnetHandler
  \/ h = NewDefaultMainnetHandler ->
  plain_path p = true -> mustBuildURL h p <> None.
Proof.
  intros [->|[->| ->]] Hp.
  - now rewrite emulator_URL.
  - now rewrite (network_URL "rest-testnet.onflow.org").
  - now rewrite (network_URL "rest-mainnet.onflow.org").
Qed.

(** X17.  On the three preset handlers no operation panics when the
    identifier or address it is given is made of letters, digits, slash,
    minus, underscore and dot, as a hexadecimal identifier is: every
    operation returns, with a value or an error. *)
Theorem preset_operations_return `{Library} (h : Handler) (id : string)
  (net : transport) :
  h = NewDefaultEmulatorHandler \/ h = NewDefaultTestnetHandler
  \/ h = NewDefaultMainnetHandler ->
  plain_path id = true ->
  (exists r, run net (getBlockByID h id) = Returns r)
  /\ (forall height, exists r, run net (getBlockByHeight h height) = Returns r)
  /\ (forall height, exists r, run net (getAccount h id height) = Returns r)
  /\ (exists r, run net (getCollection h id) = Returns r)
  /\ (forall query script arguments,
         exists r,
           run net (executeScriptAt h query script arguments) = Returns r)
  /\ (forall includeResult,
         exists r, run net (getTransaction h id includeResult) = Returns r)
  /\ (forall transaction,
         exists r, run net (sendTransaction h transaction) = Returns r).
Proof.
  intros Hpreset Hid.
  assert (Hbuilt : forall prefix : string,
             plain_path prefix = true ->
             mustBuildURL h (prefix ++ id) <> None).
  { intros prefix Hprefix. apply preset_URL_built; [exact Hpreset|].
    now rewrite plain_path_app, Hprefix, Hid. }
  destruct (built_operations_return h net)
    as (HblockID & Hheight & Haccount & Hcollection & Hscript & Htransaction
        & Hsend).
  split; [|split; [|split; [|split; [|split; [|split]]]]].
  - now apply HblockID, Hbuilt.
  - intros height. now apply Hheight, preset_URL_built.
  - intros height. now apply Haccount, Hbuilt.
  - now apply Hcollection, Hbuilt.
  - intros query script arguments. now apply Hscript, preset_URL_built.
  - intros includeResult. now apply Htransaction, Hbuilt.
  - intros transaction. now apply Hsend, preset_URL_built.
Qed.

Lemma preset_operations_return_witness :
  exists r,
    run (constant_net 200 "{}")
      (@getTransaction sample_library NewDefaultEmulatorHandler "0a1b" true)
    = Returns r.
Proof.
  destruct (@preset_operations_return sample_library
              NewDefaultEmulatorHandler "0a1b" (constant_net 200 "{}")
              (or_introl eq_refl) eq_refl)
    as (_ & _ & _ & _ & _ & Htransaction & _).
  exact (Htransaction true).
Defined.

(** * Further properties of the event encodings *)

(** X18.  Two events whose byte fields fit have the same fingerprint
    exactly when they have the same transaction ID, type and payload and
    their two indices agree as [uint32] values: no change of several fields
    at once, such as moving bytes from the end of the type to the start of
    the payload, keeps the fingerprint.  [Value] is not among the five, so
    it never changes the fingerprint. *)
Theorem Fingerprint_equal_iff (e1 e2 : Event) :
  sizes_fit e1 -> sizes_fit e2 ->
  Fingerprint e1 = Fingerprint e2
  <-> TransactionID e1 = TransactionID e2
      /\ uint32 (EventIndex e1) = uint32 (EventIndex e2)
      /\ Type_ e1 = Type_ e2
      /\ uint32 (TransactionIndex e1) = uint32 (TransactionIndex e2)
      /\ Payload e1 = Payload e2.
Proof.
  intros Hfit1 Hfit2. split.
  - now apply Fingerprint_fields.
  - intros (Hid & Hindex & Htype & Htransaction & Hpayload).
    unfold Fingerprint.
    now rewrite Hid, Hindex, Htype, Htransaction, Hpayload.
Qed.

Lemma Fingerprint_equal_iff_witness :
  Fingerprint
    (with_Value sample_event
       {| cadence.EventType := EventAccountAdded; cadence.Fields := [] |})
  = Fingerprint sample_event.
Proof.
  apply (Fingerprint_equal_iff _ sample_event).
  - repeat split; cbn; lia.
  - repeat split; cbn; lia.
  - repeat split.
Defined.

(** ** The identifier text *)

Lemma EncodeToString_length (bs : list byte) :
  String.length (hex.EncodeToString bs) = (2 * List.length bs)%nat.
Proof.
  induction bs as [|b bs IH]; [reflexivity|].
  cbn [hex.EncodeToString String.length List.length]. rewrite IH. lia.
Qed.

Lemma EncodeToString_inj (a b : list byte) :
  hex.EncodeToString a = hex.EncodeToString b -> a = b.
Proof.
  intros Heq.
  assert (Hdecoded : @Ok (list byte) a = Ok b).
  { now rewrite <- (DecodeString_EncodeToString a),
      <- (DecodeString_EncodeToString b), Heq. }
  now injection Hdecoded.
Qed.

Lemma append_inv_head (a b c : string) : a ++ b = a ++ c -> b = c.
Proof.
  induction a as [|x a IH]; [trivial|].
  rewrite !append_cons. intros [= Heq]. now apply IH.
Qed.

(** X19.  The text [ID] returns is [0x] followed by the hash of [Encode]
    in hexadecimal: the digits after the two characters decode to the hash,
    the text has two characters more than twice the bytes of the hash, and,
    because of the [x], the text as a whole is refused by
    [hex.DecodeString].  Two events have the same ID exactly when their
    encodings have the same hash, and among events of one type [String]
    tells apart exactly the events that [ID] tells apart. *)
Theorem ID_is_0x_and_the_hash_digits `{Externals} (e1 e2 : Event) :
  (exists digits : string,
      ID e1 = "0x" ++ digits
      /\ hex.DecodeString digits = Ok (ComputeHash (Encode e1)))
  /\ String.length (ID e1)
     = (2 + 2 * List.length (ComputeHash (Encode e1)))%nat
  /\ (exists err : error, hex.DecodeString (ID e1) = Err err)
  /\ (ID e1 = ID e2
      <-> ComputeHash (Encode e1) = ComputeHash (Encode e2))
  /\ (Type_ e1 = Type_ e2 ->
      (Event_String e1 = Event_String e2 <-> ID e1 = ID e2)).
Proof.
  split.
  { exists (hex.EncodeToString (ComputeHash (Encode e1))).
    split; [reflexivity|apply DecodeString_EncodeToString]. }
  split.
  { unfold ID, crypto.Hash_Hex. cbn [String.length].
    now rewrite EncodeToString_length. }
  split; [eexists; reflexivity|]. split.
  - unfold ID, crypto.Hash_Hex. split; [|now intros ->].
    intros [= Heq]. now apply EncodeToString_inj.
  - intros Htype. unfold Event_String. rewrite Htype. split.
    + intros Heq. apply append_inv_head in Heq.
      now apply (append_inv_head ": ") in Heq.
    + now intros ->.
Qed.
